(** * fsnotifier (Linux): root registry, path utilities and line reader

    A shallow embedding of [src/native/fsNotifier/linux/util.cpp] and of the
    root-registry half of [src/native/fsNotifier/linux/main.cpp].

    Conventions.
    - A value of type [string] stands for the bytes of a C string before its
      terminating NUL; a [char*] that may be null is a [ptr].
    - [int] values are in [Z], sizes ([size_t], vector sizes) in [nat].
    - Dereferencing a null pointer ends the run: operations live in a state
      monad whose outcome is either [Done] or [Fault], both carrying the
      machine state reached.
    - Everything the daemon does to the outside (mount table, [stat], the
      inotify engine, stdout) is recorded, in order, in the state's [trace]. *)

From Stdlib Require Import ZArith List String Ascii Bool Lia Sorted.
From Equations Require Import Equations.
Import ListNotations.

Local Open Scope string_scope.
Local Open Scope list_scope.
Local Open Scope Z_scope.

(** ** C strings *)

Module CString.

Definition NUL : ascii := Ascii.zero.
Definition LF : ascii := "010"%char.
Definition CR : ascii := "013"%char.
Definition SLASH : ascii := "/"%char.
Definition PIPE : ascii := "|"%char.

(** [unsigned char] value of a byte, as [strcmp] compares them. *)
Definition uchar (c : ascii) : Z := Z.of_N (N_of_ascii c).

Definition strlen (s : string) : nat := String.length s.

(** [s[i]]: reading at [strlen s] yields the terminator.  The code never
    reads past it. *)
Definition char_at (s : string) (i : nat) : ascii :=
  match String.get i s with
  | Some c => c
  | None => NUL
  end.

(** Only the sign of the result of [strcmp]/[strncmp] is specified, and only
    the sign is used by the callers; the model returns -1, 0 or 1. *)
Definition byte_diff (c1 c2 : ascii) : Z :=
  if uchar c1 <? uchar c2 then -1 else 1.

Fixpoint strcmp (s1 s2 : string) : Z :=
  match s1, s2 with
  | EmptyString, EmptyString => 0
  | EmptyString, String _ _ => -1
  | String _ _, EmptyString => 1
  | String c1 r1, String c2 r2 =>
      if Ascii.eqb c1 c2 then strcmp r1 r2 else byte_diff c1 c2
  end.

Fixpoint strncmp (s1 s2 : string) (n : nat) : Z :=
  match n with
  | O => 0
  | S n' =>
      match s1, s2 with
      | EmptyString, EmptyString => 0
      | EmptyString, String _ _ => -1
      | String _ _, EmptyString => 1
      | String c1 r1, String c2 r2 =>
          if Ascii.eqb c1 c2 then strncmp r1 r2 n' else byte_diff c1 c2
      end
  end.

End CString.
Import CString.

(** ** util.cpp: is_parent_path *)

Definition is_parent_path (parent_path child_path : string) : bool :=
  let parent_len := strlen parent_path in
  (strncmp parent_path child_path parent_len =? 0) &&
  ((parent_len =? strlen child_path)%nat ||
   Ascii.eqb (char_at child_path parent_len) SLASH).

(** ** util.cpp: read_line *)

(** A [FILE*] open for reading: the bytes not yet consumed and the
    end-of-file indicator tested by [feof]. *)
Record FILE := mkFILE { unread : string; eof : bool }.

Definition INPUT_BUF_LEN : nat := 2048.

Inductive fault :=
| NullDeref    (* read or call through a null pointer *)
| OutOfRange.  (* access outside an array or vector *)

Inductive result (A : Type) :=
| Ok (a : A)
| Err (f : fault).
Arguments Ok {A} a.
Arguments Err {A} f.

(** The part of [fgets] that moves bytes: at most [room] of them, stopping
    after a line feed or when the stream is exhausted.  Returns the bytes
    stored, the bytes left in the stream, and whether the end of the stream
    was hit. *)
Fixpoint fgets_scan (room : nat) (s : string) : string * string * bool :=
  match room with
  | O => (EmptyString, s, false)
  | S room' =>
      match s with
      | EmptyString => (EmptyString, EmptyString, true)
      | String c r =>
          if Ascii.eqb c LF then (String c EmptyString, r, false)
          else
            let '(got, rest, hit) := fgets_scan room' r in
            (String c got, rest, hit)
      end
  end.

(** [fgets(buf, n, stream)]: [None] is the null return (end of file before
    any byte was read); otherwise the bytes stored in [buf]. *)
Definition fgets (n : nat) (stream : FILE) : option string * FILE :=
  let '(got, rest, hit) := fgets_scan (n - 1) (unread stream) in
  let stream' := {| unread := rest; eof := eof stream || hit |} in
  match got with
  | EmptyString => if hit then (None, stream') else (Some got, stream')
  | String _ _ => (Some got, stream')
  end.

(** What [strlen] and every later reader see of a buffer: the bytes before
    the first NUL. *)
Fixpoint c_str (bytes : string) : string :=
  match bytes with
  | EmptyString => EmptyString
  | String c r => if Ascii.eqb c NUL then EmptyString else String c (c_str r)
  end.

(** [buf[pos] = '\0'] followed by a read of [buf] as a C string. *)
Definition truncate_at (pos : nat) (buf : string) : string :=
  String.substring 0 pos buf.

Definition read_line (stream : FILE) : result (option string) * FILE :=
  let '(retval, stream') := fgets INPUT_BUF_LEN stream in
  match retval with
  | None => (Ok None, stream')
  | Some bytes =>
      if eof stream' then (Ok None, stream')
      else
        let input_buf := c_str bytes in
        match strlen input_buf with
        | O => (Ok (Some input_buf), stream')
            (* pos = -1: the byte tested, and overwritten if it is a line
               feed, lies before the buffer; the buffer is returned as it
               is, an empty string *)
        | S pos =>
            if Ascii.eqb (char_at input_buf pos) LF
            then (Ok (Some (truncate_at pos input_buf)), stream')
            else (Ok (Some input_buf), stream')
        end
  end.

(** ** fsnotifier.h: sets ordered by [string_cmp], set_difference *)

Definition string_cmp (lhs rhs : string) : bool := strcmp lhs rhs >? 0.

(** [set<char*, string_cmp>], held as the sequence its iterator yields. *)
Module PathSet.

Definition t := list string.

Definition empty : t := [].

Definition size (s : t) : nat := List.length s.

(** Two keys are the same element when neither is ordered before the
    other. *)
Definition same (x y : string) : bool :=
  negb (string_cmp x y) && negb (string_cmp y x).

Definition find (x : string) (s : t) : bool := existsb (same x) s.

Fixpoint insert (x : string) (s : t) : t :=
  match s with
  | [] => [x]
  | y :: s' =>
      if string_cmp x y then x :: s
      else if string_cmp y x then y :: insert x s'
      else s
  end.

Definition of_list (l : list string) : t :=
  fold_left (fun s x => insert x s) l empty.

End PathSet.

(** [diff] receives every element of [s2] that is not in [s1]. *)
Definition set_difference (s1 s2 diff : PathSet.t) : PathSet.t :=
  fold_left
    (fun d elem => if PathSet.find elem s1 then d else PathSet.insert elem d)
    s2 diff.

(** ** main.cpp: data *)

Definition ptr := option string.

Definition ERR_IGNORE : Z := -1.
Definition ERR_CONTINUE : Z := -2.
Definition ERR_ABORT : Z := -3.
Definition ERR_MISSING : Z := -4.

Definition UNFLATTEN (root : string) : string :=
  match root with
  | String c r => if Ascii.eqb c PIPE then r else root
  | EmptyString => root
  end.

Record watch_root := mkRoot {
  path : string;
  id : Z   (* negative value means missing root *)
}.

Record mntent := mkMnt { mnt_dir : string; mnt_type : string }.

(** Filesystem type names of [<mntent.h>]. *)
Definition MNTTYPE_IGNORE : string := "ignore".
Definition MNTTYPE_NFS : string := "nfs".
Definition MNTTYPE_SWAP : string := "swap".

(** Event bits of [<sys/inotify.h>]. *)
Definition IN_MODIFY : Z := 0x2.
Definition IN_ATTRIB : Z := 0x4.
Definition IN_MOVED_FROM : Z := 0x40.
Definition IN_MOVED_TO : Z := 0x80.
Definition IN_CREATE : Z := 0x100.
Definition IN_DELETE : Z := 0x200.
Definition IN_DELETE_SELF : Z := 0x400.
Definition IN_MOVE_SELF : Z := 0x800.
Definition IN_UNMOUNT : Z := 0x2000.

Definition nl : string := String LF EmptyString.

(** What the daemon does to the outside, in order. *)
Inductive event :=
| Mtab (ents : option (list mntent))    (* setmntent .. endmntent; None: cannot open *)
| Stat (p : string) (ok : bool)         (* stat(p, &st) == 0 *)
| Watch (root : string) (mounts : option (list ptr)) (res : Z)
| Unwatch (wid : Z)
| Printf (format : string) (args : list ptr)   (* vprintf from output() *)
| Write (bytes : string).               (* stdout bytes of one report_event *)

(** The collaborators that are not part of these sources: the mount table,
    [stat], and the inotify engine declared in fsnotifier.h. *)
Class Platform := {
  world : Type;
  sys_mtab : world -> option (list mntent);
  sys_stat : string -> world -> bool;
  engine_watch : string -> option (list ptr) -> world -> Z * world;
  engine_unwatch : Z -> world -> world
}.

Definition is_watchable (fs : string) : bool :=
  negb ((strncmp fs "dev" 3 =? 0) || (strcmp fs "proc" =? 0) ||
        (strcmp fs "sysfs" =? 0) || (strcmp fs MNTTYPE_SWAP =? 0) ||
        ((strncmp fs "fuse" 4 =? 0) && negb (strcmp fs "fuseblk" =? 0)) ||
        (strcmp fs "cifs" =? 0) || (strcmp fs MNTTYPE_NFS =? 0)).

(** The newline scrubbing loop of [report_event]: every line feed of the
    path is overwritten with NUL, and the scan goes on to the end. *)
Fixpoint scrub (p : string) : string :=
  match p with
  | EmptyString => EmptyString
  | String c r => String (if Ascii.eqb c LF then NUL else c) (scrub r)
  end.

Fixpoint list_update {A : Type} (i : nat) (x : A) (l : list A) : list A :=
  match l, i with
  | [], _ => []
  | _ :: t, O => x :: t
  | h :: t, S i' => h :: list_update i' x t
  end.

Definition inspect {A : Type} (x : A) : { y : A | x = y } := exist _ x eq_refl.

(** ** main.cpp: operations *)

Section Daemon.

Context {P : Platform}.

Record state := mkState {
  roots : list (option watch_root);   (* vector<watch_root*>* roots *)
  roots_as_paths : PathSet.t;
  self_test : bool;
  stdin : FILE;
  trace : list event;
  env : world
}.

Definition with_roots (v : list (option watch_root)) (s : state) : state :=
  mkState v (roots_as_paths s) (self_test s) (stdin s) (trace s) (env s).
Definition with_paths (v : PathSet.t) (s : state) : state :=
  mkState (roots s) v (self_test s) (stdin s) (trace s) (env s).
Definition with_stdin (v : FILE) (s : state) : state :=
  mkState (roots s) (roots_as_paths s) (self_test s) v (trace s) (env s).
Definition with_env (v : world) (s : state) : state :=
  mkState (roots s) (roots_as_paths s) (self_test s) (stdin s) (trace s) v.
Definition log (e : event) (s : state) : state :=
  mkState (roots s) (roots_as_paths s) (self_test s) (stdin s)
          (trace s ++ [e]) (env s).

Definition log_all (es : list event) (s : state) : state :=
mkState (roots s) (roots_as_paths s) (self_test s) (stdin s)
        (trace s ++ es) (env s).

Inductive outcome (A : Type) :=
| Done (a : A) (s : state)
| Fault (f : fault) (s : state).
Arguments Done {A} a s.
Arguments Fault {A} f s.

Definition M (A : Type) := state -> outcome A.

Definition ret {A} (a : A) : M A := fun s => Done a s.

Definition bind {A B} (m : M A) (k : A -> M B) : M B :=
  fun s =>
    match m s with
    | Done a s' => k a s'
    | Fault f s' => Fault f s'
    end.

Notation "x <- m ;; k" := (bind m (fun x => k))
  (at level 61, m at next level, right associativity).
Notation "m ;; k" := (bind m (fun _ => k))
  (at level 61, right associativity).

Definition crash {A} (f : fault) : M A := fun s => Fault f s.
Definition gets {A} (f : state -> A) : M A := fun s => Done (f s) s.
Definition modify (f : state -> state) : M unit := fun s => Done tt (f s).

(** Reading through a pointer. *)
Definition deref {A} (p : option A) : M A :=
  match p with
  | Some a => ret a
  | None => crash NullDeref
  end.

(** *** Calls that leave the program *)

Definition getmntents : M (option (list mntent)) :=
  fun s => let r := sys_mtab (env s) in Done r (log (Mtab r) s).

Definition stat (p : string) : M bool :=
  fun s => let r := sys_stat p (env s) in Done r (log (Stat p r) s).

Definition watch (root : string) (mounts : option (list ptr)) : M Z :=
  fun s =>
    let '(r, w) := engine_watch root mounts (env s) in
    Done r (log (Watch root mounts r) (with_env w s)).

Definition unwatch (wid : Z) : M unit :=
  fun s => Done tt (log (Unwatch wid) (with_env (engine_unwatch wid (env s)) s)).

Definition output (format : string) (args : list ptr) : M unit :=
  fun s =>
    if self_test s then Done tt s
    else Done tt (log (Printf format args) s).

Definition report_event (ev p : string) : M unit :=
  modify (log (Write (ev ++ nl ++ scrub p ++ nl)%string)).

(** *** unwatchable_mounts *)

Definition unwatchable_mounts : M (option (list ptr)) :=
  mtab <- getmntents ;;
  match mtab with
  | None => ret None
  | Some ents =>
      ret (Some (fold_left
                   (fun mounts ent =>
                      if negb (strcmp (mnt_type ent) MNTTYPE_IGNORE =? 0) &&
                         negb (is_watchable (mnt_type ent))
                      then mounts ++ [Some (mnt_dir ent)]
                      else mounts)
                   ents (repeat None 20)))
  end.

(** *** register_roots *)

(** The loop over [mounts] for one root (lines 404-419); yields [skip] and
    the two vectors it pushes to. *)
Fixpoint scan_mounts (unflattened : string) (mounts : list ptr)
         (unwatchable inner_mounts : list ptr)
  : M (bool * list ptr * list ptr) :=
  match mounts with
  | [] => ret (false, unwatchable, inner_mounts)
  | mount :: later =>
      m <- deref mount ;;            (* strlen(parent_path) in is_parent_path *)
      if is_parent_path m unflattened then
        ret (true, unwatchable ++ [Some unflattened], inner_mounts)
      else if is_parent_path unflattened m then
        let copy := Some m in
        scan_mounts unflattened later (unwatchable ++ [copy]) (inner_mounts ++ [copy])
      else
        scan_mounts unflattened later unwatchable inner_mounts
  end.

Fixpoint register_roots (new_roots : PathSet.t) (unwatchable mounts : list ptr)
  : M (bool * list ptr) :=
  match new_roots with
  | [] => ret (true, unwatchable)
  | new_root :: rest =>
      let unflattened := UNFLATTEN new_root in
      if negb (Ascii.eqb (char_at unflattened 0) SLASH) then
        register_roots rest unwatchable mounts
      else
        scanned <- scan_mounts unflattened mounts unwatchable (repeat None 5) ;;
        let '(skip, unwatchable, inner_mounts) := scanned in
        if skip then register_roots rest unwatchable mounts
        else
          wid <- watch new_root (Some inner_mounts) ;;
          if (wid >=? 0) || (wid =? ERR_MISSING) then
            modify (fun s => with_roots (roots s ++ [Some (mkRoot new_root wid)]) s) ;;
            register_roots rest unwatchable mounts
          else if wid =? ERR_ABORT then
            ret (false, unwatchable)
          else if negb (wid =? ERR_IGNORE) then
            register_roots rest (unwatchable ++ [Some unflattened]) mounts
          else
            register_roots rest unwatchable mounts
  end.

(** *** unregister_roots *)

(** The [while (roots->size() > 0)] loop; [back_first] is the content of
    [roots] from its back to its front. *)
Fixpoint drain_roots (back_first : list (option watch_root))
         (to_remove : PathSet.t) (temp : list (option watch_root))
  : M (list (option watch_root)) :=
  match back_first with
  | [] => ret temp
  | root :: below =>
      modify (with_roots (rev below)) ;;          (* roots->pop_back() *)
      r <- deref root ;;                          (* root->path *)
      if PathSet.find (path r) to_remove then
        unwatch (id r) ;;
        drain_roots below to_remove temp
      else
        drain_roots below to_remove (temp ++ [Some r])
  end.

Definition unregister_roots (to_remove : PathSet.t) : M unit :=
  if (PathSet.size to_remove =? 0)%nat then ret tt
  else
    n <- gets (fun s => List.length (roots s)) ;;
    back_first <- gets (fun s => rev (roots s)) ;;
    temp <- drain_roots back_first to_remove (repeat None n) ;;
    (* push_back(temp->back()); temp->pop_back(), temp->size() times *)
    modify (fun s => with_roots (roots s ++ rev temp) s).

(** *** update_roots *)

Definition REFUSAL : string := ("UNWATCHEABLE" ++ nl ++ "/" ++ nl ++ "#" ++ nl)%string.
Definition HEADER : string := ("UNWATCHEABLE" ++ nl)%string.
Definition FOOTER : string := ("#" ++ nl)%string.
Definition FMT_S : string := ("%s" ++ nl)%string.

Fixpoint output_each (unwatchable : list ptr) : M unit :=
  match unwatchable with
  | [] => ret tt
  | s :: later => output FMT_S [s] ;; output_each later
  end.

Definition update_roots (new_roots : PathSet.t) : M bool :=
  if (PathSet.size new_roots =? 1)%nat && PathSet.find "/" new_roots then
    output REFUSAL [] ;;
    current <- gets roots_as_paths ;;
    unregister_roots current ;;
    modify (with_paths PathSet.empty) ;;
    ret true
  else
    mounts <- unwatchable_mounts ;;
    match mounts with
    | None => ret false
    | Some mounts =>
        current <- gets roots_as_paths ;;
        let to_add := set_difference current new_roots PathSet.empty in
        let to_remove := set_difference new_roots current PathSet.empty in
        let unwatchable := repeat None 20 in
        registered <- register_roots to_add unwatchable mounts ;;
        let '(ok, unwatchable) := registered in
        if negb ok then ret false
        else
          unregister_roots to_remove ;;
          output HEADER [] ;;
          output_each unwatchable ;;
          output FOOTER [] ;;
          modify (with_paths new_roots) ;;
          ret true
    end.

(** *** check_missing_roots, check_root_removal, inotify_callback *)

(** [roots->at(i)] *)
Definition roots_at (i : nat) : M (option watch_root) :=
  fun s =>
    match nth_error (roots s) i with
    | Some p => Done p s
    | None => Fault OutOfRange s
    end.

(** [root->id = v] for the record [roots->at(i)] points to. *)
Definition set_root_id (i : nat) (r : watch_root) (v : Z) : M unit :=
  modify (fun s => with_roots (list_update i (Some (mkRoot (path r) v)) (roots s)) s).

(** [for (int i = start; i < start + count; i++) body(i)] *)
Fixpoint for_roots (body : nat -> M unit) (start count : nat) : M unit :=
  match count with
  | O => ret tt
  | S count' => body start ;; for_roots body (S start) count'
  end.

Definition check_missing_at (i : nat) : M unit :=
  p <- roots_at i ;;
  root <- deref p ;;                              (* root->id *)
  if id root <? 0 then
    let unflattened := UNFLATTEN (path root) in
    found <- stat unflattened ;;
    if found then
      wid <- watch (path root) None ;;
      set_root_id i root wid ;;
      report_event "CREATE" unflattened ;;
      report_event "CHANGE" unflattened
    else ret tt
  else ret tt.

Definition check_missing_roots : M unit :=
  n <- gets (fun s => List.length (roots s)) ;;
  for_roots check_missing_at 0 n.

Definition check_removal_at (p : string) (i : nat) : M unit :=
  q <- roots_at i ;;
  root <- deref q ;;                              (* root->id *)
  if (id root >=? 0) && (strcmp p (UNFLATTEN (path root)) =? 0) then
    unwatch (id root) ;;
    set_root_id i root (-1) ;;
    report_event "DELETE" p
  else ret tt.

Definition check_root_removal (p : string) : M unit :=
  n <- gets (fun s => List.length (roots s)) ;;
  for_roots (check_removal_at p) 0 n.

Definition has_bits (ev mask : Z) : bool := negb (Z.land ev mask =? 0).

Definition inotify_callback (p : string) (ev : Z) : M unit :=
  (if has_bits ev (Z.lor IN_CREATE IN_MOVED_TO) then
     report_event "CREATE" p ;; report_event "CHANGE" p
   else if has_bits ev IN_MODIFY then report_event "CHANGE" p
   else if has_bits ev IN_ATTRIB then report_event "STATS" p
   else if has_bits ev (Z.lor IN_DELETE IN_MOVED_FROM) then report_event "DELETE" p
   else ret tt) ;;
  if has_bits ev (Z.lor IN_DELETE_SELF IN_MOVE_SELF) then check_root_removal p
  else if has_bits ev IN_UNMOUNT then output ("RESET" ++ nl)%string []
  else ret tt.

(** *** read_input *)

Definition read_stdin : M (option string) :=
  fun s =>
    let '(r, f) := read_line (stdin s) in
    match r with
    | Ok line => Done line (with_stdin f s)
    | Err e => Fault e (with_stdin f s)
    end.

(** [if (l > 1 && line[l-1] == '/') line[l-1] = '\0';] *)
Definition strip_slash (line : string) : string :=
  let l := strlen line in
  if (1 <? l)%nat && Ascii.eqb (char_at line (l - 1)) SLASH
  then truncate_at (l - 1) line
  else line.

(** The [while (1)] loop of the ROOTS command.  [None]: the loop left
    through [return 0]; [Some set]: it left through [break]. *)
Equations? read_roots (new_roots : PathSet.t) (s : state)
  : outcome (option PathSet.t) by wf (strlen (unread (stdin s))) lt :=
  read_roots new_roots s with inspect (read_stdin s) := {
    | exist _ (Fault f s') _ => Fault f s'
    | exist _ (Done None s') _ => Done None s'
    | exist _ (Done (Some line) s') e =>
        if (strlen line =? 0)%nat then Done None s'
        else if strcmp line "#" =? 0 then Done (Some new_roots) s'
        else read_roots (PathSet.insert (strip_slash line) new_roots) s' }.
Proof.
  clear read_roots.
  assert (scan : forall room u got rest hit,
             fgets_scan room u = (got, rest, hit) ->
             got <> EmptyString -> (strlen rest < strlen u)%nat).
  { induction room as [|room IH]; intros u got rest hit; simpl.
    - intros H. inversion H. congruence.
    - destruct u as [|c u].
      + intros H. inversion H. congruence.
      + destruct (Ascii.eqb c LF).
        * intros H _. inversion H. unfold strlen. simpl. lia.
        * destruct (fgets_scan room u) as [[g r] h] eqn:E.
          intros H _. inversion H. subst.
          destruct g as [|g0 g].
          -- destruct room; simpl in E.
             ++ inversion E. unfold strlen. simpl. lia.
             ++ destruct u as [|c' u].
                ** inversion E. unfold strlen. simpl. lia.
                ** destruct (Ascii.eqb c' LF); [discriminate|].
                   destruct (fgets_scan room u) as [[g' r'] h'].
                   discriminate.
          -- assert (strlen rest < strlen u)%nat
               by (eapply IH; [exact E | discriminate]).
             unfold strlen in *. simpl. lia. }
  unfold read_stdin, read_line, fgets in e.
  destruct (fgets_scan (INPUT_BUF_LEN - 1) (unread (stdin s)))
    as [[got rest] hit] eqn:E.
  assert (consumed : got <> EmptyString -> (strlen rest < strlen (unread (stdin s)))%nat)
    by (eapply scan; exact E).
  assert (stored : forall room u rest',
             fgets_scan (S room) u = (EmptyString, rest', false) -> False).
  { intros room u rest' H. destruct u as [|c u]; cbn [fgets_scan] in H;
      [discriminate|].
    destruct (Ascii.eqb c LF); [discriminate|].
    destruct (fgets_scan room u) as [[g r] h]. discriminate. }
  destruct got as [|g0 got]; cbv beta iota zeta in e.
  - destruct hit; [discriminate|].
    exfalso. exact (stored (INPUT_BUF_LEN - 2)%nat _ _ E).
  - cbn [eof] in e.
    destruct (eof (stdin s) || hit); [discriminate|].
    destruct (strlen (c_str (String g0 got))); [|destruct (Ascii.eqb _ LF)];
      inversion e; subst; simpl; apply consumed; discriminate.
Qed.

Definition read_input : M Z :=
  line <- read_stdin ;;
  match line with
  | None => ret 0
  | Some line =>
      if strcmp line "EXIT" =? 0 then ret 0
      else if strcmp line "ROOTS" =? 0 then
        collected <- read_roots PathSet.empty ;;
        match collected with
        | None => ret 0
        | Some new_roots =>
            ok <- update_roots new_roots ;;
            ret (if ok then ERR_CONTINUE else ERR_ABORT)
        end
      else ret ERR_CONTINUE
  end.

(** The state [main] sets up before entering the loop (lines 125-126). *)
Definition initial_state (test : bool) (input : FILE) (w : world) : state :=
  mkState (repeat None 20) PathSet.empty test input [] w.

End Daemon.

Arguments Done {P A} a s.
Arguments Fault {P A} f s.

Notation "x <- m ;; k" := (bind m (fun x => k))
  (at level 61, m at next level, right associativity).
Notation "m ;; k" := (bind m (fun _ => k))
  (at level 61, right associativity).

(** ** Vocabulary for the statements *)

(** A root whose effective path is absolute: the ones [register_roots] does
    not drop at line 396. *)
Definition valid_root (root : string) : bool :=
  Ascii.eqb (char_at (UNFLATTEN root) 0) SLASH.

(** The test of line 304: the new set is exactly the singleton of ["/"]. *)
Definition refused (new_roots : PathSet.t) : bool :=
  (PathSet.size new_roots =? 1)%nat && PathSet.find "/" new_roots.

(** The stdout calls of lines 338-344 for a vector holding only the 20
    elements it was constructed with. *)
Definition null_block : list event :=
  Printf HEADER [] :: repeat (Printf FMT_S [None]) 20 ++ [Printf FOOTER []].

(** The mount points [unwatchable_mounts] keeps (line 467). *)
Definition unwatchable_dirs (ents : list mntent) : list string :=
  map mnt_dir
      (filter (fun ent => negb (strcmp (mnt_type ent) MNTTYPE_IGNORE =? 0) &&
                          negb (is_watchable (mnt_type ent)))
              ents).

Definition is_engine_call (e : event) : bool :=
  match e with
  | Watch _ _ _ | Unwatch _ => true
  | _ => false
  end.

Fixpoint has_byte (c : ascii) (s : string) : bool :=
  match s with
  | EmptyString => false
  | String c' r => Ascii.eqb c' c || has_byte c r
  end.

(** The part of a trace that reaches stdout. *)
Definition stdout_calls (t : list event) : list event :=
  filter (fun e => match e with
                   | Printf _ _ | Write _ => true
                   | _ => false
                   end) t.

(** The two records a tick writes for a restored root. *)
Definition CREATE_of (p : string) : event :=
  Write ("CREATE" ++ nl ++ scrub (UNFLATTEN p) ++ nl)%string.

Definition CHANGE_of (p : string) : event :=
  Write ("CHANGE" ++ nl ++ scrub (UNFLATTEN p) ++ nl)%string.

(** What an idle tick does over a [roots] vector without null elements, as
    a relation between the records before, the records after, and the events
    it adds to the trace: a watched root is passed over; a missing root is
    [stat]ed, and when that succeeds the engine is asked to watch it, the
    answer [wid] (whatever it is) becomes its id, and CREATE and CHANGE are
    written for its effective path. *)
Inductive tick_visits : list watch_root -> list watch_root -> list event -> Prop :=
| tick_end :
    tick_visits [] [] []
| tick_watched r rs rs' t :
    0 <= id r -> tick_visits rs rs' t ->
    tick_visits (r :: rs) (r :: rs') t
| tick_absent r rs rs' t :
    id r < 0 -> tick_visits rs rs' t ->
    tick_visits (r :: rs) (r :: rs') (Stat (UNFLATTEN (path r)) false :: t)
| tick_found r wid rs rs' t :
    id r < 0 -> tick_visits rs rs' t ->
    tick_visits (r :: rs) (mkRoot (path r) wid :: rs')
      (Stat (UNFLATTEN (path r)) true ::
       Watch (path r) None wid ::
       CREATE_of (path r) :: CHANGE_of (path r) :: t).

(** A watched root whose effective path is [p]. *)
Definition watched_at (p : string) (r : watch_root) : bool :=
  (0 <=? id r) && String.eqb p (UNFLATTEN (path r)).

(** What [check_root_removal p] does to one record and to the trace. *)
Definition vanish (p : string) (r : watch_root) : watch_root :=
  if watched_at p r then mkRoot (path r) (-1) else r.

Definition vanish_events (p : string) (r : watch_root) : list event :=
  if watched_at p r
  then [Unwatch (id r); Write ("DELETE" ++ nl ++ scrub p ++ nl)%string]
  else [].

Definition has_self_bits (ev : Z) : bool :=
  has_bits ev (Z.lor IN_DELETE_SELF IN_MOVE_SELF).

(** A loop body that reads through [roots->at(i)] and writes at most to the
    record found there. *)
Definition visits_own_root {P : Platform} (body : nat -> M unit) : Prop :=
  forall i (s : state),
    match nth_error (roots s) i with
    | Some None => body i s = Fault NullDeref s
    | Some (Some r) =>
        exists s' r', body i s = Done tt s' /\
                      roots s' = list_update i (Some r') (roots s)
    | None => True
    end.

(** States the daemon can be in between two operations of its main loop:
    a command was read, an engine callback ran, an idle tick passed, or the
    outside changed (filesystem, engine, pending input). *)
Inductive reachable {P : Platform} : state -> Prop :=
| reach_init test input w :
    reachable (initial_state test input w)
| reach_update s new_roots ok s' :
    reachable s -> update_roots new_roots s = Done ok s' -> reachable s'
| reach_input s r s' :
    reachable s -> read_input s = Done r s' -> reachable s'
| reach_event s p ev s' :
    reachable s -> inotify_callback p ev s = Done tt s' -> reachable s'
| reach_tick s s' :
    reachable s -> check_missing_roots s = Done tt s' -> reachable s'
| reach_outside s f w :
    reachable s -> reachable (with_stdin f (with_env w s)).

(** ** main.cpp: the multiplexed loop *)

(** One return of [select] in [main_loop]: a failure (with whether [errno]
    is [EINTR]), or the two descriptors' readiness. *)
Inductive wake :=
| SelectFailed (eintr : bool)
| Selected (input_ready inotify_ready : bool).

Section MainLoop.

Context {P : Platform}.

(** [process_inotify_input] is declared in fsnotifier.h and defined with the
    engine, outside these sources. *)
Variable process_inotify_input : M bool.

(** [main_loop] over the [select] results it meets, in order.  [None]: the
    loop is still running when they are used up. *)
Fixpoint main_loop (wakes : list wake) : M (option bool) :=
  match wakes with
  | [] => ret None
  | SelectFailed eintr :: later =>
      if eintr then main_loop later else ret (Some false)
  | Selected true _ :: later =>
      result <- read_input ;;
      if result =? 0 then ret (Some true)
      else if negb (result =? ERR_CONTINUE) then ret (Some false)
      else main_loop later
  | Selected false true :: later =>
      ok <- process_inotify_input ;;
      if ok then main_loop later else ret (Some false)
  | Selected false false :: later =>
      check_missing_roots ;; main_loop later
  end.

(** [main] from line 130 to its return, outside self-test mode and once
    [init_inotify] has succeeded: the loop, then
    [unregister_roots(roots_as_paths)], then the exit status. *)
Definition main_after_init (wakes : list wake) : M (option Z) :=
  finished <- main_loop wakes ;;
  match finished with
  | None => ret None
  | Some ok =>
      current <- gets roots_as_paths ;;
      unregister_roots current ;;
      ret (Some (if ok then 0 else 3))
  end.

End MainLoop.

(** ** More vocabulary *)

(** A line the parent can send as a root: not empty, not the terminator
    [#], free of LF and NUL, and short enough for the input buffer. *)
Definition root_line (l : string) : bool :=
  negb (strlen l =? 0)%nat && negb (strcmp l "#" =? 0) &&
  negb (has_byte LF l) && negb (has_byte NUL l) &&
  (strlen l <? INPUT_BUF_LEN - 1)%nat.

(** The set the ROOTS loop builds from the lines it reads. *)
Definition collect (ls : list string) (acc : PathSet.t) : PathSet.t :=
  fold_left (fun set l => PathSet.insert (strip_slash l) set) ls acc.

(** [l1 LF l2 LF ...] *)
Definition text_of (ls : list string) : string :=
  fold_right (fun l acc => (l ++ nl ++ acc)%string) EmptyString ls.

Definition ordered (s : PathSet.t) : Prop :=
  Sorted (fun a b => string_cmp a b = true) s.

Definition begins_with (p s : string) : Prop :=
  exists rest, s = (p ++ rest)%string.

(** The exclude vector of a [watch] call made by [register_roots]. *)
Definition registers (e : event) : Prop :=
  match e with
  | Watch _ (Some m) _ => exists inner, m = repeat None 5 ++ map Some inner
  | _ => False
  end.

Definition removed_by (to_remove : PathSet.t) (r : watch_root) : bool :=
  PathSet.find (path r) to_remove.

(** What every state the daemon can reach looks like: [roots] holds the
    20 null elements and nothing else, the current set holds no root with
    an absolute effective path, and the engine was never called. *)
Definition registry_idle {P : Platform} (s : state) : Prop :=
  roots s = repeat None 20 /\
  forallb (fun r => negb (valid_root r)) (roots_as_paths s) = true /\
  forallb (fun e => negb (is_engine_call e)) (trace s) = true.

(** ** A small concrete platform

    Used to run the operations on concrete inputs: a filesystem given by the
    list of directories that exist, a mount table, and an engine that hands
    out increasing ids until the watch limit is hit. *)

Module Sim.

Record fs := mkFs {
  dirs : list string;
  mounted : option (list mntent);
  watch_limit : bool;
  next_id : Z
}.

Definition sim_stat (p : string) (w : fs) : bool :=
  existsb (String.eqb p) (dirs w).

Definition sim_watch (root : string) (mounts : option (list ptr)) (w : fs)
  : Z * fs :=
  if sim_stat (UNFLATTEN root) w then
    if watch_limit w then (ERR_CONTINUE, w)
    else (next_id w, mkFs (dirs w) (mounted w) (watch_limit w) (next_id w + 1))
  else (ERR_MISSING, w).

#[export] Instance platform : Platform := {|
  world := fs;
  sys_mtab := mounted;
  sys_stat := sim_stat;
  engine_watch := sim_watch;
  engine_unwatch := fun _ w => w
|}.

(** Input bytes of the parent followed by more to come (the stream is not
    at its end after the last line). *)
Definition lines (l : list string) : string :=
  fold_right (fun x acc => (x ++ nl ++ acc)%string) EmptyString l.

Definition pipe (l : list string) : FILE := mkFILE (lines l) false.

(** [/tmp/x] exists, is empty, and no unwatchable filesystem is mounted. *)
Definition plain : fs :=
  mkFs ["/"; "/tmp"; "/tmp/x"] (Some [mkMnt "/" "ext4"]) false 0.

(** As [plain], with an nfs mount at [/tmp/x/mnt]. *)
Definition with_nfs : fs :=
  mkFs ["/"; "/tmp"; "/tmp/x"; "/tmp/x/mnt"]
       (Some [mkMnt "/" "ext4"; mkMnt "/tmp/x/mnt" "nfs"]) false 0.

(** As [plain], with the inotify watch limit reached. *)
Definition exhausted : fs :=
  mkFs ["/"; "/tmp"; "/tmp/x"] (Some [mkMnt "/" "ext4"]) true 0.

(** The daemon right after start-up, with [input] pending on stdin. *)
Definition booted (input : list string) (w : fs) : state :=
  initial_state false (pipe input) w.

(** The daemon after the command [ROOTS], [rel], [#]: the relative root was
    passed over, the block of the 20 null elements was printed, and the
    current set is the singleton of [rel]. *)
Definition settled : state :=
  with_paths ["rel"]
    (log_all (Mtab (mounted plain) :: null_block) (booted [] plain)).

(** The daemon after the command [ROOTS], [/], [#]: the refusal was
    printed and the current set is empty. *)
Definition turned_down : state :=
  with_paths PathSet.empty (log (Printf REFUSAL []) (booted [] plain)).

(** A registry holding one missing root, [/tmp/x], and no null element,
    while the watch limit is reached. *)
Definition stale : state :=
  with_roots [Some (mkRoot "/tmp/x" ERR_MISSING)] (booted [] exhausted).

(** A line of [INPUT_BUF_LEN - 1] bytes, none of them a line feed: as long
    as one call of [fgets] can return. *)
Definition long_line : string :=
  string_of_list_ascii (repeat "a"%char (INPUT_BUF_LEN - 1)).

(** A world whose mount table cannot be opened. *)
Definition no_mtab : fs := mkFs ["/"; "/tmp"; "/tmp/x"] None false 0.

(** A registry holding one watched root, [/tmp/x], and no null element. *)
Definition watching : state :=
  with_roots [Some (mkRoot "/tmp/x" 0)] (booted [] plain).

End Sim.

(** ** Facts about the C string primitives and the path sets *)

Section CStringFacts.

Lemma byte_diff_nonzero c1 c2 : byte_diff c1 c2 <> 0.
Proof. unfold byte_diff. destruct (uchar c1 <? uchar c2); lia. Qed.

Lemma strcmp_refl s : strcmp s s = 0.
Proof.
  induction s as [|c s IH]; simpl; [reflexivity|].
  rewrite Ascii.eqb_refl. exact IH.
Qed.

Lemma strcmp_eq s1 : forall s2, strcmp s1 s2 = 0 <-> s1 = s2.
Proof.
  induction s1 as [|c1 r1 IH]; intros [|c2 r2]; simpl;
    try (split; [lia | discriminate]); [tauto|].
  destruct (Ascii.eqb c1 c2) eqn:E.
  - apply Ascii.eqb_eq in E. subst c2. rewrite IH.
    split; [intros ->; reflexivity | intros H; injection H; auto].
  - split.
    + intros H. exfalso. exact (byte_diff_nonzero _ _ H).
    + intros H. injection H as Hc _. subst c2.
      rewrite Ascii.eqb_refl in E. discriminate.
Qed.

(** [strncmp p c (strlen p) = 0] says exactly that [p] is a prefix of [c]. *)
Lemma strncmp_prefix p : forall c,
  strncmp p c (strlen p) = 0 <-> exists rest, c = (p ++ rest)%string.
Proof.
  induction p as [|a p IH]; intros c; simpl.
  - split; [intros _; exists c; reflexivity | reflexivity].
  - destruct c as [|b c].
    + split; [lia | intros [rest H]; discriminate].
    + destruct (Ascii.eqb a b) eqn:E.
      * apply Ascii.eqb_eq in E. subst b. rewrite IH.
        split; intros [rest H]; exists rest.
        -- rewrite H. reflexivity.
        -- injection H. auto.
      * split.
        -- intros H. exfalso. exact (byte_diff_nonzero _ _ H).
        -- intros [rest H]. injection H as Hc _. subst b.
           rewrite Ascii.eqb_refl in E. discriminate.
Qed.

Lemma strlen_app s t : strlen (s ++ t)%string = (strlen s + strlen t)%nat.
Proof. unfold strlen. induction s; simpl; auto. Qed.

Lemma char_at_app p : forall rest,
  char_at (p ++ rest)%string (strlen p) = char_at rest 0.
Proof.
  induction p as [|a p IH]; intros rest; simpl; [reflexivity|].
  unfold char_at in *. simpl. apply IH.
Qed.

Lemma app_empty_r s : (s ++ "")%string = s.
Proof. induction s; simpl; congruence. Qed.

(** The index read by [is_parent_path] is within the child string or at its
    terminator whenever the read is reached. *)
Lemma is_parent_path_read_in_bounds p c :
  strncmp p c (strlen p) = 0 -> (strlen p <= strlen c)%nat.
Proof.
  intros H. apply strncmp_prefix in H. destruct H as [rest ->].
  rewrite strlen_app. lia.
Qed.

Lemma uchar_inj c1 c2 : uchar c1 = uchar c2 -> c1 = c2.
Proof.
  unfold uchar. intros H. apply N2Z.inj in H.
  rewrite <- (ascii_N_embedding c1), <- (ascii_N_embedding c2), H.
  reflexivity.
Qed.

Lemma byte_diff_flip c1 c2 : c1 <> c2 -> byte_diff c2 c1 = - byte_diff c1 c2.
Proof.
  intros Hne. unfold byte_diff.
  assert (uchar c1 <> uchar c2) by (intros H; apply Hne, uchar_inj, H).
  destruct (uchar c1 <? uchar c2) eqn:E1; destruct (uchar c2 <? uchar c1) eqn:E2;
    try reflexivity.
  - apply Z.ltb_lt in E1. apply Z.ltb_lt in E2. lia.
  - apply Z.ltb_ge in E1. apply Z.ltb_ge in E2. lia.
Qed.

Lemma strcmp_flip s1 : forall s2, strcmp s2 s1 = - strcmp s1 s2.
Proof.
  induction s1 as [|c1 r1 IH]; intros [|c2 r2]; cbn [strcmp]; try reflexivity.
  rewrite (Ascii.eqb_sym c2 c1). destruct (Ascii.eqb c1 c2) eqn:E.
  - apply IH.
  - apply byte_diff_flip. intros ->. rewrite Ascii.eqb_refl in E. discriminate.
Qed.

(** The comparator's equivalence is equality of the strings. *)
Lemma same_eq x y : PathSet.same x y = true <-> x = y.
Proof.
  unfold PathSet.same, string_cmp. split.
  - rewrite andb_true_iff, !negb_true_iff. intros [H1 H2].
    rewrite strcmp_flip in H2. apply strcmp_eq.
    destruct (strcmp x y >? 0) eqn:E1; [discriminate|].
    destruct (- strcmp x y >? 0) eqn:E2; [discriminate|].
    rewrite Z.gtb_ltb in E1, E2. apply Z.ltb_ge in E1. apply Z.ltb_ge in E2.
    lia.
  - intros ->. rewrite strcmp_refl. reflexivity.
Qed.

Lemma find_iff_in x (s : PathSet.t) : PathSet.find x s = true <-> In x s.
Proof.
  unfold PathSet.find. rewrite existsb_exists. split.
  - intros (y & Hin & Hsame). apply same_eq in Hsame. subst y. exact Hin.
  - intros Hin. exists x. split; [exact Hin | apply same_eq; reflexivity].
Qed.

(** [insert] keeps the sequence in the comparator's order and adds exactly
    the inserted key. *)
Lemma insert_in x y (s : PathSet.t) :
  In y (PathSet.insert x s) <-> y = x \/ In y s.
Proof.
  induction s as [|z s IH]; cbn [PathSet.insert].
  - cbn. intuition congruence.
  - destruct (string_cmp x z) eqn:E1; [cbn; intuition congruence|].
    destruct (string_cmp z x) eqn:E2.
    + cbn [In]. rewrite IH. intuition congruence.
    + assert (x = z).
      { apply same_eq. unfold PathSet.same. rewrite E1, E2. reflexivity. }
      subst z. cbn [In]. intuition congruence.
Qed.

Lemma insert_sorted x (s : PathSet.t) :
  Sorted (fun a b => string_cmp a b = true) s ->
  Sorted (fun a b => string_cmp a b = true) (PathSet.insert x s).
Proof.
  induction 1 as [|z s Hs IH Hhd]; cbn [PathSet.insert].
  - repeat constructor.
  - destruct (string_cmp x z) eqn:E1.
    + constructor; [constructor; assumption | constructor; exact E1].
    + destruct (string_cmp z x) eqn:E2; [|constructor; assumption].
      constructor; [exact IH|].
      destruct s as [|w s]; cbn [PathSet.insert].
      * constructor. exact E2.
      * inversion Hhd; subst.
        destruct (string_cmp x w); [constructor; exact E2|].
        destruct (string_cmp w x); constructor; assumption.
Qed.

Lemma set_difference_in s1 s2 : forall diff x,
  In x (set_difference s1 s2 diff) <->
  In x diff \/ (In x s2 /\ ~ In x s1).
Proof.
  unfold set_difference.
  induction s2 as [|e s2 IH]; intros diff x; cbn [fold_left].
  - cbn. tauto.
  - rewrite IH. destruct (PathSet.find e s1) eqn:E.
    + apply find_iff_in in E. cbn [In]. split.
      * tauto.
      * intros [H|[[->|H] Hn]]; tauto.
    + assert (~ In e s1) by (rewrite <- find_iff_in, E; discriminate).
      rewrite insert_in. cbn [In]. split.
      * intros [[->|H']|H']; tauto.
      * intros [H'|[[->|H'] Hn]]; tauto.
Qed.

End CStringFacts.

(** C6: [is_parent_path parent child] is true iff [child] equals [parent] or
    begins with [parent] followed immediately by a slash; in particular
    [is_parent_path p p] holds for every [p], ["/a"] is not a parent of
    ["/ab"], and ["/a"] is a parent of ["/a/b"]. *)
Theorem is_parent_path_iff :
  (forall parent child : string,
      is_parent_path parent child = true <->
      (child = parent \/ exists rest, child = (parent ++ String SLASH rest)%string))
  /\ (forall p : string, is_parent_path p p = true)
  /\ is_parent_path "/a" "/ab" = false
  /\ is_parent_path "/a" "/a/b" = true.
Proof.
  assert (main : forall parent child : string,
             is_parent_path parent child = true <->
             (child = parent \/ exists rest, child = (parent ++ String SLASH rest)%string)).
  { intros p c. unfold is_parent_path. rewrite andb_true_iff, orb_true_iff.
    rewrite Z.eqb_eq, strncmp_prefix, Nat.eqb_eq, Ascii.eqb_eq. split.
    - intros [[rest ->] H]. rewrite strlen_app, char_at_app in H.
      destruct rest as [|b rest].
      + left. apply app_empty_r.
      + destruct H as [H|H].
        * simpl in H. unfold strlen in H. simpl in H. lia.
        * right. exists rest. unfold char_at in H. simpl in H. subst b.
          reflexivity.
    - intros [->|[rest ->]].
      + split; [exists ""; symmetry; apply app_empty_r | left; reflexivity].
      + split; [eexists; reflexivity | right].
        rewrite char_at_app. reflexivity. }
  split; [exact main|]. split; [|split; reflexivity].
  intros p. apply main. left. reflexivity.
Qed.


(** ** The registry: vectors constructed with a size *)

Section RegistryFacts.

Context {P : Platform}.

Lemma log_is_log_all e (s : state) : log e s = log_all [e] s.
Proof. reflexivity. Qed.

Lemma log_all_nil (s : state) : log_all [] s = s.
Proof. destruct s. unfold log_all. cbn. rewrite app_nil_r. reflexivity. Qed.

Lemma log_all_app a b (s : state) : log_all b (log_all a s) = log_all (a ++ b) s.
Proof. unfold log_all. cbn. rewrite app_assoc. reflexivity. Qed.

Lemma scan_mounts_null u ms unw inner (s : state) :
  scan_mounts u (None :: ms) unw inner s = Fault NullDeref s.
Proof. reflexivity. Qed.

(** With a null first element in [mounts], the first valid root ends the
    run inside [is_parent_path]; invalid roots are passed over. *)
Lemma register_roots_null_mounts l : forall unw ms (s : state),
  register_roots l unw (None :: ms) s =
  if existsb valid_root l then Fault NullDeref s else Done (true, unw) s.
Proof.
  induction l as [|r l IH]; intros unw ms s; [reflexivity|].
  cbn [register_roots existsb]. unfold valid_root at 1.
  destruct (Ascii.eqb (char_at (UNFLATTEN r) 0) SLASH); cbn [negb orb].
  - reflexivity.
  - apply IH.
Qed.

Lemma unwatchable_fold ents : forall acc,
  fold_left
    (fun mounts ent =>
       if negb (strcmp (mnt_type ent) MNTTYPE_IGNORE =? 0) &&
          negb (is_watchable (mnt_type ent))
       then mounts ++ [Some (mnt_dir ent)]
       else mounts)
    ents acc
  = acc ++ map Some (unwatchable_dirs ents).
Proof.
  unfold unwatchable_dirs.
  induction ents as [|ent ents IH]; intros acc; cbn [fold_left filter map].
  - rewrite app_nil_r. reflexivity.
  - rewrite IH.
    destruct (negb (strcmp (mnt_type ent) MNTTYPE_IGNORE =? 0) &&
              negb (is_watchable (mnt_type ent))); [|reflexivity].
    cbn [map]. rewrite <- app_assoc. reflexivity.
Qed.

Lemma unwatchable_mounts_opened (s : state) ents :
  sys_mtab (env s) = Some ents ->
  unwatchable_mounts s =
  Done (Some (repeat None 20 ++ map Some (unwatchable_dirs ents)))
       (log (Mtab (Some ents)) s).
Proof.
  intros H. unfold unwatchable_mounts, bind, getmntents. rewrite H.
  unfold ret. rewrite unwatchable_fold. reflexivity.
Qed.

Lemma unwatchable_mounts_closed (s : state) :
  sys_mtab (env s) = None ->
  unwatchable_mounts s = Done None (log (Mtab None) s).
Proof.
  intros H. unfold unwatchable_mounts, bind, getmntents. rewrite H.
  reflexivity.
Qed.

Lemma output_each_trace l : forall s : state,
  output_each l s =
  Done tt (if self_test s then s
           else log_all (map (fun p => Printf FMT_S [p]) l) s).
Proof.
  induction l as [|p l IH]; intros s; cbn [output_each map].
  - unfold ret. rewrite log_all_nil. destruct (self_test s); reflexivity.
  - unfold bind, output. destruct (self_test s) eqn:E.
    + rewrite IH, E. reflexivity.
    + rewrite IH. cbn [self_test log]. rewrite E.
      rewrite log_is_log_all, log_all_app. reflexivity.
Qed.

Lemma unregister_roots_nothing (s : state) : unregister_roots [] s = Done tt s.
Proof. reflexivity. Qed.

(** The removal loop pops every element and reads [root->path] of each. *)
Lemma drain_roots_null back_first : forall to_remove temp (s : state),
  In None back_first ->
  exists s', drain_roots back_first to_remove temp s = Fault NullDeref s'.
Proof.
  induction back_first as [|root below IH]; intros to_remove temp s Hin;
    [contradiction|].
  cbn [drain_roots]. unfold bind at 1. unfold modify at 1.
  destruct root as [r|].
  - destruct Hin as [Hin|Hin]; [discriminate|].
    unfold bind at 1. cbn [deref]. unfold ret at 1.
    destruct (PathSet.find (path r) to_remove).
    + unfold bind at 1, unwatch at 1. apply IH. exact Hin.
    + apply IH. exact Hin.
  - eexists. reflexivity.
Qed.

Lemma unregister_roots_null to_remove (s : state) :
  to_remove <> [] -> In None (roots s) ->
  exists s', unregister_roots to_remove s = Fault NullDeref s'.
Proof.
  intros Hne Hin. unfold unregister_roots.
  destruct to_remove as [|x to_remove]; [congruence|].
  cbn [PathSet.size List.length Nat.eqb].
  unfold bind at 1, gets at 1. unfold bind at 1, gets at 1.
  unfold bind at 1.
  destruct (drain_roots_null (rev (roots s)) (x :: to_remove)
              (repeat None (List.length (roots s))) s) as [s' E].
  { apply in_rev. rewrite rev_involutive. exact Hin. }
  rewrite E. eexists. reflexivity.
Qed.

(** What a completed removal loop leaves behind: an empty [roots], the kept
    records appended to [temp], and one [unwatch] per removed record. *)
Lemma drain_roots_done back_first : forall to_remove temp (s : state) temp' s',
  drain_roots back_first to_remove temp s = Done temp' s' ->
  exists kept calls,
    temp' = temp ++ map Some kept /\
    (forall r, In r kept -> In (Some r) back_first) /\
    roots s' = match back_first with [] => roots s | _ :: _ => [] end /\
    trace s' = trace s ++ calls /\
    forallb is_engine_call calls = true /\
    self_test s' = self_test s /\
    roots_as_paths s' = roots_as_paths s /\
    stdin s' = stdin s.
Proof.
  induction back_first as [|root below IH]; intros to_remove temp s temp' s'.
  - cbn [drain_roots]. unfold ret. intros H. inversion H; subst.
    exists [], []. cbn [map]. rewrite !app_nil_r. repeat split. contradiction.
  - cbn [drain_roots]. unfold bind at 1. unfold modify at 1.
    destruct root as [r|]; [|discriminate].
    unfold bind at 1. cbn [deref]. unfold ret at 1.
    destruct (PathSet.find (path r) to_remove).
    + unfold bind at 1, unwatch at 1. intros H.
      apply IH in H. destruct H as (kept & calls & Ht & Hk & Hr & Htr & Hc & H1 & H2 & H3).
      exists kept, (Unwatch (id r) :: calls).
      cbn [roots trace self_test roots_as_paths stdin log with_env with_roots] in *.
      repeat split; try assumption.
      * intros r0 Hin. right. apply Hk. exact Hin.
      * destruct below; [rewrite Hr; apply rev_nil || reflexivity | exact Hr].
      * rewrite Htr, <- app_assoc. reflexivity.
    + intros H.
      apply IH in H. destruct H as (kept & calls & Ht & Hk & Hr & Htr & Hc & H1 & H2 & H3).
      exists (r :: kept), calls.
      cbn [roots trace self_test roots_as_paths stdin log with_env with_roots] in *.
      repeat split; try assumption.
      * rewrite Ht, <- app_assoc. reflexivity.
      * intros r0 [->|Hin]; [left; reflexivity | right; apply Hk; exact Hin].
      * destruct below; [rewrite Hr; reflexivity | exact Hr].
Qed.

Lemma unregister_roots_done to_remove (s s' : state) :
  unregister_roots to_remove s = Done tt s' ->
  exists calls,
    trace s' = trace s ++ calls /\
    forallb is_engine_call calls = true /\
    self_test s' = self_test s /\
    roots_as_paths s' = roots_as_paths s /\
    stdin s' = stdin s /\
    (forall r, In (Some r) (roots s') -> In (Some r) (roots s)) /\
    (to_remove = [] -> s' = s).
Proof.
  unfold unregister_roots. destruct to_remove as [|x to_remove].
  - cbn. unfold ret. intros H. inversion H; subst.
    exists []. rewrite app_nil_r. repeat split. auto.
  - cbn [PathSet.size List.length Nat.eqb].
    unfold bind at 1, gets at 1. unfold bind at 1, gets at 1.
    unfold bind at 1.
    destruct (drain_roots (rev (roots s)) (x :: to_remove)
                (repeat None (List.length (roots s))) s) as [temp' s1|f s1] eqn:E;
      [|discriminate].
    unfold modify. intros H. inversion H; subst. clear H.
    apply drain_roots_done in E.
    destruct E as (kept & calls & Ht & Hk & Hr & Htr & Hc & H1 & H2 & H3).
    exists calls.
    cbn [roots trace self_test roots_as_paths stdin with_roots].
    repeat split; try assumption.
    + intros r Hin. apply in_app_or in Hin. destruct Hin as [Hin|Hin].
      * rewrite Hr in Hin. destruct (rev (roots s)); [|contradiction].
        exact Hin.
      * apply in_rev in Hin. rewrite Ht in Hin. apply in_app_or in Hin.
        destruct Hin as [Hin|Hin].
        -- apply repeat_spec in Hin. discriminate.
        -- apply in_map_iff in Hin. destruct Hin as (r0 & Heq & Hin).
           inversion Heq; subst. apply in_rev. apply Hk. exact Hin.
    + discriminate.
Qed.

(** Lines 338-355 once registration and removal are over. *)
Lemma update_roots_report new_roots unwatchable (s : state) :
  (output HEADER [] ;; output_each unwatchable ;; output FOOTER [] ;;
   modify (with_paths new_roots) ;; ret true) s =
  Done true
       (with_paths new_roots
          (if self_test s then s
           else log_all (Printf HEADER [] ::
                         map (fun p => Printf FMT_S [p]) unwatchable ++
                         [Printf FOOTER []]) s)).
Proof.
  unfold bind at 1, output at 1. destruct (self_test s) eqn:E.
  - unfold bind at 1. rewrite output_each_trace, E.
    unfold bind at 1, output at 1. rewrite E. reflexivity.
  - unfold bind at 1. rewrite output_each_trace. cbn [self_test log].
    rewrite E. unfold bind at 1, output at 1. cbn [self_test log_all log].
    rewrite E. unfold bind, modify, ret.
    rewrite !log_is_log_all, !log_all_app. reflexivity.
Qed.

(** [update_roots] when the refusal test holds (lines 304-311). *)
Lemma update_roots_refusing new_roots (s : state) :
  refused new_roots = true ->
  update_roots new_roots s =
  (unregister_roots (roots_as_paths s) ;;
   modify (with_paths PathSet.empty) ;; ret true)
    (if self_test s then s else log (Printf REFUSAL []) s).
Proof.
  intros Href. unfold update_roots. unfold refused in Href. rewrite Href.
  unfold bind at 1, output at 1. destruct (self_test s); reflexivity.
Qed.

(** [update_roots] past the refusal test, with a readable mount table. *)
Lemma update_roots_registering new_roots ents (s : state) :
  refused new_roots = false ->
  sys_mtab (env s) = Some ents ->
  update_roots new_roots s =
  if existsb valid_root (set_difference (roots_as_paths s) new_roots PathSet.empty)
  then Fault NullDeref (log (Mtab (Some ents)) s)
  else
    (unregister_roots (set_difference new_roots (roots_as_paths s) PathSet.empty) ;;
     output HEADER [] ;; output_each (repeat None 20) ;; output FOOTER [] ;;
     modify (with_paths new_roots) ;; ret true)
      (log (Mtab (Some ents)) s).
Proof.
  intros Href Hm. unfold update_roots. unfold refused in Href. rewrite Href.
  unfold bind at 1. rewrite (unwatchable_mounts_opened s ents Hm).
  unfold bind at 1, gets at 1. cbn [roots_as_paths log].
  unfold bind at 1.
  change (repeat None 20 ++ map Some (unwatchable_dirs ents))
    with (@None string :: (repeat None 19 ++ map Some (unwatchable_dirs ents))).
  rewrite register_roots_null_mounts.
  destruct (existsb valid_root
              (set_difference (roots_as_paths s) new_roots PathSet.empty));
    reflexivity.
Qed.

Lemma update_roots_unreadable new_roots (s : state) :
  refused new_roots = false ->
  sys_mtab (env s) = None ->
  update_roots new_roots s = Done false (log (Mtab None) s).
Proof.
  intros Href Hm. unfold update_roots. unfold refused in Href. rewrite Href.
  unfold bind at 1. rewrite (unwatchable_mounts_closed s Hm). reflexivity.
Qed.

(** Both vectors only ever grow at the back. *)
Lemma scan_mounts_pushes u mounts : forall unw inner (s : state) skip unw' inner' s',
  scan_mounts u mounts unw inner s = Done (skip, unw', inner') s' ->
  s' = s /\ (exists pushed, unw' = unw ++ pushed) /\
  (exists pushed, inner' = inner ++ pushed).
Proof.
  induction mounts as [|mount later IH]; intros unw inner s skip unw' inner' s'.
  - cbn [scan_mounts]. unfold ret. intros H. inversion H; subst.
    split; [reflexivity|]. split; exists []; rewrite app_nil_r; reflexivity.
  - cbn [scan_mounts]. unfold bind at 1.
    destruct mount as [m|]; [|discriminate]. cbn [deref]. unfold ret at 1.
    destruct (is_parent_path m u).
    + unfold ret. intros H. inversion H; subst.
      split; [reflexivity|]. split; eexists; [reflexivity|].
      rewrite app_nil_r. reflexivity.
    + destruct (is_parent_path u m).
      * intros H. apply IH in H. destruct H as (Hs & [p1 H1] & [p2 H2]).
        split; [exact Hs|]. subst. split; eexists; rewrite <- app_assoc; reflexivity.
      * apply IH.
Qed.

Lemma register_roots_pushes to_add : forall unw mounts (s : state) ok unw' s',
  register_roots to_add unw mounts s = Done (ok, unw') s' ->
  exists pushed, unw' = unw ++ pushed.
Proof.
  induction to_add as [|r rest IH]; intros unw mounts s ok unw' s'.
  - cbn [register_roots]. unfold ret. intros H. inversion H; subst.
    exists []. rewrite app_nil_r. reflexivity.
  - cbn [register_roots].
    destruct (negb (Ascii.eqb (char_at (UNFLATTEN r) 0) SLASH)); [apply IH|].
    unfold bind at 1.
    destruct (scan_mounts (UNFLATTEN r) mounts unw (repeat None 5) s)
      as [[[skip unw1] inner1] s1|f s1] eqn:E; [|discriminate].
    apply scan_mounts_pushes in E. destruct E as (_ & [p1 H1] & _). subst unw1.
    destruct skip.
    + intros H. apply IH in H. destruct H as [p2 H2]. subst.
      eexists. rewrite <- app_assoc. reflexivity.
    + unfold bind at 1, watch at 1.
      destruct (engine_watch r (Some inner1) (env s1)) as [wid w].
      destruct ((wid >=? 0) || (wid =? ERR_MISSING)).
      * unfold bind at 1, modify at 1. intros H. apply IH in H.
        destruct H as [p2 H2]. subst.
        eexists. rewrite <- app_assoc. reflexivity.
      * destruct (wid =? ERR_ABORT).
        -- unfold ret. intros H. inversion H; subst. exists p1. reflexivity.
        -- destruct (negb (wid =? ERR_IGNORE)); intros H; apply IH in H;
             destruct H as [p2 H2]; subst; eexists;
             rewrite <- ?app_assoc; reflexivity.
Qed.

(** C9: [unwatchable_mounts] returns, and [update_roots] builds, a vector
    constructed with size 20, so 20 null elements precede every real entry.
    Hence every update that has at least one (absolute) root to register
    ends inside [is_parent_path], called by [register_roots] with a null
    parent, before any engine call or output; and every UNWATCHEABLE block
    written from the vector formats the 20 null elements with [%s] first. *)
Theorem sized_vectors_put_nulls_first (s : state) new_roots ents :
  refused new_roots = false ->
  sys_mtab (env s) = Some ents ->
  unwatchable_mounts s =
    Done (Some (repeat None 20 ++ map Some (unwatchable_dirs ents)))
         (log (Mtab (Some ents)) s)
  /\ (existsb valid_root
        (set_difference (roots_as_paths s) new_roots PathSet.empty) = true ->
      update_roots new_roots s = Fault NullDeref (log (Mtab (Some ents)) s))
  /\ (forall ok s',
        update_roots new_roots s = Done ok s' -> self_test s = false ->
        ok = true /\
        exists calls,
          forallb is_engine_call calls = true /\
          trace s' = trace s ++ Mtab (Some ents) :: calls ++ null_block)
  /\ (forall to_add unw mounts (s0 : state) ok unw' s1,
        register_roots to_add unw mounts s0 = Done (ok, unw') s1 ->
        exists pushed, unw' = unw ++ pushed).
Proof.
  intros Href Hm. split; [apply unwatchable_mounts_opened; exact Hm|].
  split; [|split].
  - intros Hv. rewrite (update_roots_registering _ ents s Href Hm), Hv.
    reflexivity.
  - intros ok s' Hrun Hst.
    rewrite (update_roots_registering _ ents s Href Hm) in Hrun.
    destruct (existsb valid_root _); [discriminate|].
    unfold bind at 1 in Hrun.
    destruct (unregister_roots _ (log (Mtab (Some ents)) s)) as [[] s2|f s2] eqn:E;
      [|discriminate].
    apply unregister_roots_done in E.
    destruct E as (calls & Htr & Hc & Hself & _).
    rewrite update_roots_report in Hrun. inversion Hrun; subst. clear Hrun.
    split; [reflexivity|]. exists calls. split; [exact Hc|].
    cbn [self_test log] in Hself. rewrite Hself, Hst.
    cbn [trace with_paths log_all]. rewrite Htr. cbn [trace log].
    rewrite <- !app_assoc. reflexivity.
  - intros to_add unw mounts s0 ok unw' s1. apply register_roots_pushes.
Qed.

(** ** Loops over [roots] *)

Lemma list_update_length {A} (x : A) l : forall i,
  List.length (list_update i x l) = List.length l.
Proof.
  induction l as [|h t IH]; intros [|i]; cbn [list_update List.length];
    try reflexivity.
  rewrite IH. reflexivity.
Qed.

Lemma list_update_other {A} (x : A) l : forall i j,
  i <> j -> nth_error (list_update i x l) j = nth_error l j.
Proof.
  induction l as [|h t IH]; intros [|i] [|j] Hne;
    cbn [list_update nth_error]; try reflexivity; try congruence.
  apply IH. congruence.
Qed.

Lemma list_update_same {A} (x : A) l : forall i,
  nth_error l i = Some x -> list_update i x l = l.
Proof.
  induction l as [|h t IH]; intros [|i]; cbn [list_update nth_error];
    try reflexivity.
  - intros H. inversion H. reflexivity.
  - intros H. rewrite IH by exact H. reflexivity.
Qed.

Lemma list_update_at {A} (x : A) l1 y l2 :
  list_update (List.length l1) x (l1 ++ y :: l2) = l1 ++ x :: l2.
Proof.
  induction l1 as [|h t IH]; cbn [list_update List.length app];
    [reflexivity|]. rewrite IH. reflexivity.
Qed.

Lemma check_missing_at_visits : visits_own_root check_missing_at.
Proof.
  intros i s. destruct (nth_error (roots s) i) as [[r|]|] eqn:E; [| |exact I].
  - unfold check_missing_at, bind at 1, roots_at. rewrite E.
    unfold bind at 1. cbn [deref]. unfold ret at 1.
    destruct (id r <? 0).
    + unfold bind at 1, stat at 1.
      destruct (sys_stat (UNFLATTEN (path r)) (env s)).
      * unfold bind at 1, watch at 1. cbn [env log].
        destruct (engine_watch (path r) None (env s)) as [wid w].
        eexists. exists (mkRoot (path r) wid). split; reflexivity.
      * eexists. exists r. split; [reflexivity|].
        cbn [roots log]. symmetry. apply list_update_same. exact E.
    + eexists. exists r. split; [reflexivity|].
      symmetry. apply list_update_same. exact E.
  - unfold check_missing_at, bind at 1, roots_at. rewrite E. reflexivity.
Qed.

Lemma check_removal_at_visits p : visits_own_root (check_removal_at p).
Proof.
  intros i s. destruct (nth_error (roots s) i) as [[r|]|] eqn:E; [| |exact I].
  - unfold check_removal_at, bind at 1, roots_at. rewrite E.
    unfold bind at 1. cbn [deref]. unfold ret at 1.
    destruct ((id r >=? 0) && (strcmp p (UNFLATTEN (path r)) =? 0)).
    + eexists. exists (mkRoot (path r) (-1)). split; reflexivity.
    + eexists. exists r. split; [reflexivity|].
      symmetry. apply list_update_same. exact E.
  - unfold check_removal_at, bind at 1, roots_at. rewrite E. reflexivity.
Qed.

(** Such a loop ends at the first null element in its range. *)
Lemma for_roots_null body :
  visits_own_root body ->
  forall count start (s : state),
    (start + count <= List.length (roots s))%nat ->
    (exists j, (start <= j < start + count)%nat /\
               nth_error (roots s) j = Some None) ->
    exists s', for_roots body start count s = Fault NullDeref s'.
Proof.
  intros Hbody.
  induction count as [|count IH]; intros start s Hlen (j & Hj & Hnull);
    [lia|].
  cbn [for_roots]. unfold bind at 1.
  pose proof (Hbody start s) as Hb.
  destruct (nth_error (roots s) start) as [[r|]|] eqn:E.
  - destruct Hb as (s1 & r' & Hrun & Hroots). rewrite Hrun.
    apply IH.
    + rewrite Hroots, list_update_length. lia.
    + exists j. assert (start <> j) by (intros ->; congruence).
      split; [lia|]. rewrite Hroots, list_update_other by assumption.
      exact Hnull.
  - rewrite Hb. eexists. reflexivity.
  - apply nth_error_None in E. lia.
Qed.

Lemma in_null_index (s : state) :
  In None (roots s) ->
  exists j, (0 <= j < 0 + List.length (roots s))%nat /\
            nth_error (roots s) j = Some None.
Proof.
  intros Hin. apply In_nth_error in Hin. destruct Hin as [j Hj].
  exists j. split; [|exact Hj].
  assert (nth_error (roots s) j <> None) by congruence.
  apply nth_error_Some in H. lia.
Qed.

Lemma check_missing_roots_null (s : state) :
  In None (roots s) ->
  exists s', check_missing_roots s = Fault NullDeref s'.
Proof.
  intros Hin. unfold check_missing_roots, bind, gets.
  apply (for_roots_null _ check_missing_at_visits); [lia|].
  apply in_null_index. exact Hin.
Qed.

Lemma check_root_removal_null p (s : state) :
  In None (roots s) ->
  exists s', check_root_removal p s = Fault NullDeref s'.
Proof.
  intros Hin. unfold check_root_removal, bind, gets.
  apply (for_roots_null _ (check_removal_at_visits p)); [lia|].
  apply in_null_index. exact Hin.
Qed.

(** ** Reading commands *)

Lemma read_stdin_frame (s : state) :
  match read_stdin s with
  | Done _ s' | Fault _ s' => s' = with_stdin (stdin s') s
  end.
Proof.
  unfold read_stdin. destruct (read_line (stdin s)) as [[line|e] f];
    reflexivity.
Qed.

Lemma read_roots_frame acc (s : state) :
  match read_roots acc s with
  | Done _ s' | Fault _ s' => s' = with_stdin (stdin s') s
  end.
Proof.
  funelim (read_roots acc s);
    match goal with
    | e : read_stdin ?s = _ |- _ =>
        pose proof (read_stdin_frame s) as Hf; rewrite e in Hf
    end; try exact Hf.
  destruct (strlen line =? 0)%nat; [exact Hf|].
  destruct (strcmp line "#" =? 0); [exact Hf|].
  destruct (read_roots _ s') as [r s2|f s2]; rewrite H, Hf; reflexivity.
Qed.

(** ** The null elements of [roots] never go away *)

Lemma unregister_roots_keeps_null to_remove (s s' : state) :
  In None (roots s) -> unregister_roots to_remove s = Done tt s' -> s' = s.
Proof.
  intros Hin Hrun. destruct to_remove as [|x l].
  - inversion Hrun. reflexivity.
  - destruct (unregister_roots_null (x :: l) s) as [s1 E];
      [discriminate | exact Hin | congruence].
Qed.

Lemma update_roots_keeps_null new_roots (s : state) ok s' :
  In None (roots s) -> update_roots new_roots s = Done ok s' ->
  roots s' = roots s.
Proof.
  intros Hin Hrun. destruct (refused new_roots) eqn:Href.
  - rewrite (update_roots_refusing _ s Href) in Hrun.
    set (s0 := if self_test s then s else log (Printf REFUSAL []) s) in *.
    assert (Hs0 : roots s0 = roots s) by (subst s0; destruct (self_test s); reflexivity).
    unfold bind at 1 in Hrun.
    destruct (unregister_roots (roots_as_paths s) s0) as [[] s2|f s2] eqn:E;
      [|discriminate].
    apply unregister_roots_keeps_null in E; [|rewrite Hs0; exact Hin].
    subst s2. inversion Hrun; subst. exact Hs0.
  - destruct (sys_mtab (env s)) as [ents|] eqn:Hm.
    + rewrite (update_roots_registering _ ents s Href Hm) in Hrun.
      destruct (existsb valid_root _); [discriminate|].
      unfold bind at 1 in Hrun.
      destruct (unregister_roots _ (log (Mtab (Some ents)) s)) as [[] s2|f s2] eqn:E;
        [|discriminate].
      apply unregister_roots_keeps_null in E; [|exact Hin]. subst s2.
      rewrite update_roots_report in Hrun. inversion Hrun; subst.
      cbn [self_test log]. destruct (self_test s); reflexivity.
    + rewrite (update_roots_unreadable _ s Href Hm) in Hrun.
      inversion Hrun; subst. reflexivity.
Qed.

Lemma read_input_keeps_null (s : state) r s' :
  In None (roots s) -> read_input s = Done r s' -> roots s' = roots s.
Proof.
  intros Hin. unfold read_input, bind at 1.
  pose proof (read_stdin_frame s) as Hf.
  destruct (read_stdin s) as [line s1|f s1]; [|discriminate].
  assert (H1 : roots s1 = roots s) by (rewrite Hf; reflexivity).
  destruct line as [line|]; [|intros H; inversion H; subst; exact H1].
  destruct (strcmp line "EXIT" =? 0); [intros H; inversion H; subst; exact H1|].
  destruct (strcmp line "ROOTS" =? 0); [|intros H; inversion H; subst; exact H1].
  unfold bind at 1.
  pose proof (read_roots_frame PathSet.empty s1) as Hg.
  destruct (read_roots PathSet.empty s1) as [c s2|f s2]; [|discriminate].
  assert (H2 : roots s2 = roots s) by (rewrite Hg; exact H1).
  destruct c as [new_roots|]; [|intros H; inversion H; subst; exact H2].
  unfold bind at 1.
  destruct (update_roots new_roots s2) as [ok s3|f s3] eqn:E; [|discriminate].
  apply update_roots_keeps_null in E; [|rewrite H2; exact Hin].
  intros H; inversion H; subst. congruence.
Qed.

Lemma inotify_callback_keeps_null p ev (s : state) s' :
  In None (roots s) -> inotify_callback p ev s = Done tt s' ->
  roots s' = roots s.
Proof.
  intros Hin. unfold inotify_callback, bind at 1.
  match goal with
  | |- context [match ?m s with _ => _ end] =>
      assert (Hpre : exists s1, m s = Done tt s1 /\ roots s1 = roots s)
  end.
  { destruct (has_bits ev (Z.lor IN_CREATE IN_MOVED_TO));
      [eexists; split; reflexivity|].
    destruct (has_bits ev IN_MODIFY); [eexists; split; reflexivity|].
    destruct (has_bits ev IN_ATTRIB); [eexists; split; reflexivity|].
    destruct (has_bits ev (Z.lor IN_DELETE IN_MOVED_FROM));
      eexists; split; reflexivity. }
  destruct Hpre as (s1 & -> & H1).
  destruct (has_bits ev (Z.lor IN_DELETE_SELF IN_MOVE_SELF)).
  - destruct (check_root_removal_null p s1) as [s2 E];
      [rewrite H1; exact Hin | congruence].
  - destruct (has_bits ev IN_UNMOUNT).
    + unfold output. destruct (self_test s1); intros H; inversion H; subst;
        exact H1.
    + intros H; inversion H; subst. exact H1.
Qed.

Lemma reachable_roots (s : state) : reachable s -> roots s = repeat None 20.
Proof.
  assert (Hnull : In None (repeat (@None watch_root) 20)) by (left; reflexivity).
  induction 1 as [test input w
                 | s nr ok s' _ IH Hrun
                 | s r s' _ IH Hrun
                 | s p ev s' _ IH Hrun
                 | s s' _ IH Hrun
                 | s f w _ IH].
  - reflexivity.
  - rewrite <- IH. apply (update_roots_keeps_null nr s ok); [|exact Hrun].
    rewrite IH. exact Hnull.
  - rewrite <- IH. apply (read_input_keeps_null s r); [|exact Hrun].
    rewrite IH. exact Hnull.
  - rewrite <- IH. apply (inotify_callback_keeps_null p ev s); [|exact Hrun].
    rewrite IH. exact Hnull.
  - destruct (check_missing_roots_null s) as [s1 E]; [|congruence].
    rewrite IH. exact Hnull.
  - exact IH.
Qed.

(** C10: [roots] is constructed with size 20, which leaves 20 null elements
    that stay for the whole run; [check_missing_roots], [check_root_removal]
    and the removal loop of [unregister_roots] read through every element,
    so each of them ends in a null dereference whenever it runs. *)
Theorem null_roots_are_permanent_and_fatal (s : state) :
  reachable s ->
  (exists rest, roots s = repeat None 20 ++ rest)
  /\ (exists s', check_missing_roots s = Fault NullDeref s')
  /\ (forall p, exists s', check_root_removal p s = Fault NullDeref s')
  /\ (forall to_remove, to_remove <> [] ->
        exists s', unregister_roots to_remove s = Fault NullDeref s').
Proof.
  intros Hreach. pose proof (reachable_roots s Hreach) as Hroots.
  assert (Hin : In None (roots s)) by (rewrite Hroots; left; reflexivity).
  split; [exists []; rewrite app_nil_r; exact Hroots|].
  split; [apply check_missing_roots_null; exact Hin|].
  split; [intros p; apply check_root_removal_null; exact Hin|].
  intros to_remove Hne. apply unregister_roots_null; assumption.
Qed.

(** ** Updating to the current set *)

Lemma find_member x (l : PathSet.t) : In x l -> PathSet.find x l = true.
Proof.
  intros Hin. unfold PathSet.find. apply existsb_exists. exists x.
  split; [exact Hin|]. unfold PathSet.same, string_cmp.
  rewrite strcmp_refl. reflexivity.
Qed.

Lemma set_difference_subset s1 s2 : forall diff,
  (forall x, In x s2 -> In x s1) -> set_difference s1 s2 diff = diff.
Proof.
  unfold set_difference.
  induction s2 as [|x s2 IH]; intros diff Hsub; cbn [fold_left];
    [reflexivity|].
  rewrite find_member by (apply Hsub; left; reflexivity).
  apply IH. intros y Hy. apply Hsub. right. exact Hy.
Qed.

Lemma stdout_calls_app a b :
  stdout_calls (a ++ b) = stdout_calls a ++ stdout_calls b.
Proof. apply filter_app. Qed.

Lemma stdout_calls_engine calls :
  forallb is_engine_call calls = true -> stdout_calls calls = [].
Proof.
  induction calls as [|e calls IH]; cbn [forallb stdout_calls filter];
    [reflexivity|].
  rewrite andb_true_iff. intros [He Hc].
  destruct e; try discriminate; apply IH; exact Hc.
Qed.

(** The trace of any completed [update_roots] that got past the refusal
    test: the mount table is read, removed roots are unwatched, and, on
    success, the block of the 20 null elements is printed. *)
Lemma update_roots_registering_trace new_roots (s : state) ok s' :
  refused new_roots = false ->
  update_roots new_roots s = Done ok s' ->
  self_test s' = self_test s /\
  exists calls,
    forallb is_engine_call calls = true /\
    trace s' = trace s ++ Mtab (sys_mtab (env s)) :: calls ++
               (if ok && negb (self_test s) then null_block else []) /\
    (ok = true <-> sys_mtab (env s) <> None).
Proof.
  intros Href Hrun. destruct (sys_mtab (env s)) as [ents|] eqn:Hm.
  - rewrite (update_roots_registering _ ents s Href Hm) in Hrun.
    destruct (existsb valid_root _); [discriminate|].
    unfold bind at 1 in Hrun.
    destruct (unregister_roots _ (log (Mtab (Some ents)) s)) as [[] s2|f s2] eqn:E;
      [|discriminate].
    apply unregister_roots_done in E.
    destruct E as (calls & Htr & Hc & Hself & _).
    rewrite update_roots_report in Hrun. inversion Hrun; subst. clear Hrun.
    cbn [self_test log] in Hself. rewrite Hself.
    split; [destruct (self_test s); cbn; congruence|].
    exists calls. split; [exact Hc|]. split; [|split; congruence].
    destruct (self_test s); cbn [andb negb trace with_paths log_all];
      rewrite Htr; cbn [trace log]; rewrite <- !app_assoc, ?app_nil_r;
      reflexivity.
  - rewrite (update_roots_unreadable _ s Href Hm) in Hrun.
    inversion Hrun; subst. split; [reflexivity|]. exists [].
    split; [reflexivity|]. split; [reflexivity|].
    split; [discriminate | congruence].
Qed.

(** C7, as the code has it: calling [update_roots] with the set that is
    already current performs no [watch] and no [unwatch] call and leaves
    the registry and the current set as they are.  When the update that
    made the set current was not the refusal of the single root [/], it
    writes to stdout exactly what that update wrote, or nothing at all
    when the mount table cannot be opened (it then returns false). *)
Theorem update_to_current_set_is_noop (s : state) new_roots :
  (forall x, In x new_roots <-> In x (roots_as_paths s)) ->
  refused new_roots = false ->
  exists ok s',
    update_roots new_roots s = Done ok s' /\
    roots s' = roots s /\
    (forall x, In x (roots_as_paths s') <-> In x (roots_as_paths s)) /\
    trace s' = trace s ++ Mtab (sys_mtab (env s)) ::
               (if ok && negb (self_test s) then null_block else []) /\
    (forall e, In e (trace s') -> In e (trace s) \/ is_engine_call e = false) /\
    (forall s0 previous,
        refused previous = false ->
        update_roots previous s0 = Done true s ->
        exists t0 t1,
          trace s = trace s0 ++ t0 /\ trace s' = trace s ++ t1 /\
          stdout_calls t1 = if ok then stdout_calls t0 else []).
Proof.
  intros Hsame Href.
  assert (Hrun : exists ok s',
             update_roots new_roots s = Done ok s' /\ roots s' = roots s /\
             (forall x, In x (roots_as_paths s') <-> In x (roots_as_paths s)) /\
             trace s' = trace s ++ Mtab (sys_mtab (env s)) ::
                        (if ok && negb (self_test s) then null_block else [])).
  { destruct (sys_mtab (env s)) as [ents|] eqn:Hm.
    - exists true. eexists.
      rewrite (update_roots_registering _ ents s Href Hm).
      rewrite !set_difference_subset by (intros x; apply Hsame).
      cbn [PathSet.empty existsb]. unfold bind at 1.
      rewrite unregister_roots_nothing, update_roots_report.
      split; [reflexivity|]. cbn [self_test log andb].
      destruct (self_test s); cbn [negb roots roots_as_paths trace with_paths log log_all];
        (split; [reflexivity|]); (split; [intros x; apply Hsame|]).
      + reflexivity.
      + rewrite <- app_assoc. reflexivity.
    - exists false. eexists. rewrite (update_roots_unreadable _ s Href Hm).
      split; [reflexivity|]. split; [reflexivity|].
      split; [intros x; reflexivity | reflexivity]. }
  destruct Hrun as (ok & s' & Hrun & Hroots & Hpaths & Htrace).
  exists ok, s'. repeat split; try assumption; try apply Hpaths.
  - intros e Hin. rewrite Htrace in Hin. apply in_app_or in Hin.
    destruct Hin as [Hin|[<-|Hin]]; [left; exact Hin | right; reflexivity |].
    right. destruct (ok && negb (self_test s)); [|contradiction].
    unfold null_block in Hin. destruct Hin as [<-|Hin]; [reflexivity|].
    apply in_app_or in Hin. destruct Hin as [Hin|[<-|[]]]; [|reflexivity].
    apply repeat_spec in Hin. subst e. reflexivity.
  - intros s0 previous Hprev Hrun0.
    destruct (update_roots_registering_trace previous s0 true s Hprev Hrun0)
      as (Hself & calls & Hc & Htr0 & _).
    eexists. eexists. split; [exact Htr0|]. split; [exact Htrace|].
    destruct ok; [|reflexivity].
    rewrite Hself. cbn [andb stdout_calls filter].
    change (filter _ ?l) with (stdout_calls l).
    rewrite !stdout_calls_app, (stdout_calls_engine calls Hc).
    reflexivity.
Qed.

(** ** Ticks and root removal over a vector without null elements *)

Lemma roots_nth done r rest (s : state) :
  roots s = map Some (done ++ r :: rest) ->
  nth_error (roots s) (List.length done) = Some (Some r).
Proof.
  intros ->. rewrite map_app, nth_error_app2; rewrite length_map; [|lia].
  rewrite Nat.sub_diag. reflexivity.
Qed.

Lemma roots_update done (r r' : watch_root) rest :
  list_update (List.length done) (Some r') (map Some (done ++ r :: rest)) =
  map Some ((done ++ [r']) ++ rest).
Proof.
  rewrite <- app_assoc. cbn [app]. rewrite !map_app. cbn [map].
  rewrite <- (length_map (@Some watch_root) done). apply list_update_at.
Qed.

Lemma length_snoc {A} (l : list A) x : List.length (l ++ [x]) = S (List.length l).
Proof. rewrite length_app. cbn. lia. Qed.

Lemma roots_same done (r : watch_root) rest :
  map Some (done ++ r :: rest) = map Some ((done ++ [r]) ++ rest).
Proof. rewrite <- app_assoc. reflexivity. Qed.

Lemma check_missing_at_watched i (s : state) r :
  nth_error (roots s) i = Some (Some r) -> (id r <? 0) = false ->
  check_missing_at i s = Done tt s.
Proof.
  intros E Hid. unfold check_missing_at, bind at 1, roots_at. rewrite E.
  unfold bind at 1. cbn [deref]. unfold ret at 1. rewrite Hid. reflexivity.
Qed.

Lemma check_missing_at_absent i (s : state) r :
  nth_error (roots s) i = Some (Some r) -> (id r <? 0) = true ->
  sys_stat (UNFLATTEN (path r)) (env s) = false ->
  check_missing_at i s = Done tt (log (Stat (UNFLATTEN (path r)) false) s).
Proof.
  intros E Hid Hstat. unfold check_missing_at, bind at 1, roots_at. rewrite E.
  unfold bind at 1. cbn [deref]. unfold ret at 1. rewrite Hid.
  unfold bind at 1, stat at 1. rewrite Hstat. reflexivity.
Qed.

Lemma check_missing_at_found i (s : state) r wid w :
  nth_error (roots s) i = Some (Some r) -> (id r <? 0) = true ->
  sys_stat (UNFLATTEN (path r)) (env s) = true ->
  engine_watch (path r) None (env s) = (wid, w) ->
  check_missing_at i s =
  Done tt
    (log (Write ("CHANGE" ++ nl ++ scrub (UNFLATTEN (path r)) ++ nl)%string)
       (log (Write ("CREATE" ++ nl ++ scrub (UNFLATTEN (path r)) ++ nl)%string)
          (with_roots (list_update i (Some (mkRoot (path r) wid)) (roots s))
             (log (Watch (path r) None wid)
                (with_env w (log (Stat (UNFLATTEN (path r)) true) s)))))).
Proof.
  intros E Hid Hstat Hw. unfold check_missing_at, bind at 1, roots_at.
  rewrite E. unfold bind at 1. cbn [deref]. unfold ret at 1. rewrite Hid.
  unfold bind at 1, stat at 1. rewrite Hstat.
  unfold bind at 1, watch at 1. cbn [env log]. rewrite Hw.
  reflexivity.
Qed.

Lemma check_missing_loop rs : forall done (s : state),
  roots s = map Some (done ++ rs) ->
  exists s' rs' t,
    for_roots check_missing_at (List.length done) (List.length rs) s = Done tt s' /\
    roots s' = map Some (done ++ rs') /\
    trace s' = trace s ++ t /\
    tick_visits rs rs' t.
Proof.
  induction rs as [|r rest IH]; intros done s Hroots.
  - exists s, [], []. cbn [for_roots List.length]. unfold ret.
    split; [reflexivity|]. split; [exact Hroots|].
    split; [symmetry; apply app_nil_r | constructor].
  - cbn [for_roots List.length]. unfold bind at 1.
    pose proof (roots_nth done r rest s Hroots) as Hnth.
    destruct (id r <? 0) eqn:Hid.
    + destruct (sys_stat (UNFLATTEN (path r)) (env s)) eqn:Hstat.
      * destruct (engine_watch (path r) None (env s)) as [wid w] eqn:Hw.
        rewrite (check_missing_at_found _ s r wid w Hnth Hid Hstat Hw).
        rewrite Hroots, roots_update.
        match goal with
        | |- context [for_roots _ _ _ ?s1] =>
            destruct (IH (done ++ [mkRoot (path r) wid]) s1)
              as (s' & rs' & t & Hrun & Hr & Ht & Hv); [reflexivity|]
        end.
        rewrite length_snoc in Hrun. rewrite Hrun.
        eexists s', (mkRoot (path r) wid :: rs'), _.
        split; [reflexivity|]. split; [rewrite Hr, <- app_assoc; reflexivity|].
        split; [|apply tick_found; [apply Z.ltb_lt; exact Hid | exact Hv]].
        rewrite Ht. cbn [trace log log_all with_env with_roots].
        rewrite <- !app_assoc. reflexivity.
      * rewrite (check_missing_at_absent _ s r Hnth Hid Hstat).
        destruct (IH (done ++ [r]) (log (Stat (UNFLATTEN (path r)) false) s))
          as (s' & rs' & t & Hrun & Hr & Ht & Hv).
        { cbn [roots log]. rewrite Hroots. apply roots_same. }
        rewrite length_snoc in Hrun. rewrite Hrun.
        eexists s', (r :: rs'), _.
        split; [reflexivity|]. split; [rewrite Hr, <- app_assoc; reflexivity|].
        split; [|apply tick_absent; [apply Z.ltb_lt; exact Hid | exact Hv]].
        rewrite Ht. cbn [trace log]. rewrite <- !app_assoc. reflexivity.
    + rewrite (check_missing_at_watched _ s r Hnth Hid).
      destruct (IH (done ++ [r]) s) as (s' & rs' & t & Hrun & Hr & Ht & Hv).
      { rewrite Hroots. apply roots_same. }
      rewrite length_snoc in Hrun. rewrite Hrun.
      eexists s', (r :: rs'), t.
      split; [reflexivity|]. split; [rewrite Hr, <- app_assoc; reflexivity|].
      split; [exact Ht | apply tick_watched; [apply Z.ltb_ge; exact Hid | exact Hv]].
Qed.

Lemma check_missing_roots_visits (s : state) rs :
  roots s = map Some rs ->
  exists s' rs' t,
    check_missing_roots s = Done tt s' /\
    roots s' = map Some rs' /\
    trace s' = trace s ++ t /\
    tick_visits rs rs' t.
Proof.
  intros Hroots. unfold check_missing_roots, bind, gets.
  rewrite Hroots, length_map. apply (check_missing_loop rs [] s). exact Hroots.
Qed.

Lemma removal_test p r :
  (id r >=? 0) && (strcmp p (UNFLATTEN (path r)) =? 0) = watched_at p r.
Proof.
  unfold watched_at. rewrite Z.geb_leb. f_equal.
  destruct (String.eqb p (UNFLATTEN (path r))) eqn:E.
  - apply String.eqb_eq in E. rewrite E, strcmp_refl. reflexivity.
  - apply Z.eqb_neq. intros H. apply strcmp_eq in H.
    apply String.eqb_neq in E. contradiction.
Qed.

Lemma check_removal_at_other p i (s : state) r :
  nth_error (roots s) i = Some (Some r) -> watched_at p r = false ->
  check_removal_at p i s = Done tt s.
Proof.
  intros E Hw. unfold check_removal_at, bind at 1, roots_at. rewrite E.
  unfold bind at 1. cbn [deref]. unfold ret at 1.
  rewrite removal_test, Hw. reflexivity.
Qed.

Lemma check_removal_at_hit p i (s : state) r :
  nth_error (roots s) i = Some (Some r) -> watched_at p r = true ->
  check_removal_at p i s =
  Done tt
    (log (Write ("DELETE" ++ nl ++ scrub p ++ nl)%string)
       (with_roots (list_update i (Some (mkRoot (path r) (-1))) (roots s))
          (log (Unwatch (id r))
             (with_env (engine_unwatch (id r) (env s)) s)))).
Proof.
  intros E Hw. unfold check_removal_at, bind at 1, roots_at. rewrite E.
  unfold bind at 1. cbn [deref]. unfold ret at 1.
  rewrite removal_test, Hw. reflexivity.
Qed.

Lemma check_removal_loop p rs : forall done (s : state),
  roots s = map Some (done ++ rs) ->
  exists s',
    for_roots (check_removal_at p) (List.length done) (List.length rs) s = Done tt s' /\
    roots s' = map Some (done ++ map (vanish p) rs) /\
    trace s' = trace s ++ flat_map (vanish_events p) rs.
Proof.
  induction rs as [|r rest IH]; intros done s Hroots.
  - exists s. cbn [for_roots List.length map flat_map]. unfold ret.
    split; [reflexivity|]. split; [exact Hroots | symmetry; apply app_nil_r].
  - cbn [for_roots List.length map flat_map]. unfold bind at 1.
    pose proof (roots_nth done r rest s Hroots) as Hnth.
    unfold vanish at 1, vanish_events at 1.
    destruct (watched_at p r) eqn:Hw.
    + rewrite (check_removal_at_hit p _ s r Hnth Hw).
      rewrite Hroots, roots_update.
      match goal with
      | |- context [for_roots _ _ _ ?s1] =>
          destruct (IH (done ++ [mkRoot (path r) (-1)]) s1)
            as (s' & Hrun & Hr & Ht); [reflexivity|]
      end.
      rewrite length_snoc in Hrun. rewrite Hrun. exists s'.
      split; [reflexivity|]. split; [rewrite Hr, <- app_assoc; reflexivity|].
      rewrite Ht. cbn [trace log with_env with_roots].
      rewrite <- !app_assoc. reflexivity.
    + rewrite (check_removal_at_other p _ s r Hnth Hw).
      destruct (IH (done ++ [r]) s) as (s' & Hrun & Hr & Ht).
      { rewrite Hroots. apply roots_same. }
      rewrite length_snoc in Hrun. rewrite Hrun. exists s'.
      split; [reflexivity|]. split; [rewrite Hr, <- app_assoc; reflexivity|].
      exact Ht.
Qed.

Lemma check_root_removal_vanishes p (s : state) rs :
  roots s = map Some rs ->
  exists s',
    check_root_removal p s = Done tt s' /\
    roots s' = map Some (map (vanish p) rs) /\
    trace s' = trace s ++ flat_map (vanish_events p) rs.
Proof.
  intros Hroots. unfold check_root_removal, bind, gets.
  rewrite Hroots, length_map. apply (check_removal_loop p rs [] s). exact Hroots.
Qed.

(** The reporting half of [inotify_callback] (lines 478-490). *)
Lemma inotify_callback_split p ev (s : state) :
  exists s1,
    (roots s1 = roots s /\ roots_as_paths s1 = roots_as_paths s) /\
    inotify_callback p ev s =
    (if has_self_bits ev then check_root_removal p
     else if has_bits ev IN_UNMOUNT then output ("RESET" ++ nl)%string []
     else ret tt) s1.
Proof.
  unfold inotify_callback, bind at 1, has_self_bits.
  destruct (has_bits ev (Z.lor IN_CREATE IN_MOVED_TO));
    [eexists; split; [|reflexivity]; split; reflexivity|].
  destruct (has_bits ev IN_MODIFY);
    [eexists; split; [|reflexivity]; split; reflexivity|].
  destruct (has_bits ev IN_ATTRIB);
    [eexists; split; [|reflexivity]; split; reflexivity|].
  destruct (has_bits ev (Z.lor IN_DELETE IN_MOVED_FROM));
    eexists; (split; [|reflexivity]); split; reflexivity.
Qed.

Lemma inotify_callback_other p ev (s : state) :
  has_self_bits ev = false ->
  exists s', inotify_callback p ev s = Done tt s' /\ roots s' = roots s.
Proof.
  intros Hbits. destruct (inotify_callback_split p ev s) as (s1 & [H1 _] & ->).
  rewrite Hbits. destruct (has_bits ev IN_UNMOUNT).
  - unfold output. destruct (self_test s1); eexists; split;
      try reflexivity; exact H1.
  - exists s1. split; [reflexivity | exact H1].
Qed.

(** What a completed [register_roots] adds, for any [mounts] vector: one
    record per root that the engine accepted or reported missing, with the
    id the engine returned. *)
Lemma register_roots_appends to_add : forall unw mounts (s : state) ok unw' s',
  register_roots to_add unw mounts s = Done (ok, unw') s' ->
  exists news t,
    roots s' = roots s ++ map Some news /\
    trace s' = trace s ++ t /\
    roots_as_paths s' = roots_as_paths s /\
    self_test s' = self_test s /\
    (forall r, In r news ->
               (0 <= id r \/ id r = ERR_MISSING) /\
               exists m, In (Watch (path r) (Some m) (id r)) t).
Proof.
  induction to_add as [|root rest IH]; intros unw mounts s ok unw' s'.
  - cbn [register_roots]. unfold ret. intros H. inversion H; subst.
    exists [], []. cbn [map]. rewrite !app_nil_r.
    repeat split; contradiction.
  - cbn [register_roots].
    destruct (negb (Ascii.eqb (char_at (UNFLATTEN root) 0) SLASH)); [apply IH|].
    unfold bind at 1.
    destruct (scan_mounts (UNFLATTEN root) mounts unw (repeat None 5) s)
      as [[[skip unw1] inner1] s1|f s1] eqn:E; [|discriminate].
    apply scan_mounts_pushes in E. destruct E as (-> & _ & _).
    destruct skip; [apply IH|].
    unfold bind at 1, watch at 1.
    destruct (engine_watch root (Some inner1) (env s)) as [wid w].
    destruct ((wid >=? 0) || (wid =? ERR_MISSING)) eqn:Hid.
    + unfold bind at 1, modify at 1. intros H. apply IH in H.
      destruct H as (news & t & Hr & Ht & Hp & Hs & Hnew).
      cbn [roots trace roots_as_paths self_test log with_env with_roots] in *.
      exists (mkRoot root wid :: news), (Watch root (Some inner1) wid :: t).
      split; [rewrite Hr, <- app_assoc; reflexivity|].
      split; [rewrite Ht, <- app_assoc; reflexivity|].
      split; [exact Hp|]. split; [exact Hs|].
      intros r [<-|Hin].
      * cbn [id path]. split.
        -- apply orb_true_iff in Hid. destruct Hid as [Hid|Hid].
           ++ left. apply Z.geb_le in Hid. exact Hid.
           ++ right. apply Z.eqb_eq. exact Hid.
        -- exists inner1. left. reflexivity.
      * destruct (Hnew r Hin) as [Hok [m Hm]]. split; [exact Hok|].
        exists m. right. exact Hm.
    + assert (Hrest : forall unw2 ok2 unw2' s2',
                 register_roots rest unw2 mounts
                   (log (Watch root (Some inner1) wid) (with_env w s))
                 = Done (ok2, unw2') s2' ->
                 exists news t,
                   roots s2' = roots s ++ map Some news /\
                   trace s2' = trace s ++ t /\
                   roots_as_paths s2' = roots_as_paths s /\
                   self_test s2' = self_test s /\
                   (forall r, In r news ->
                              (0 <= id r \/ id r = ERR_MISSING) /\
                              exists m, In (Watch (path r) (Some m) (id r)) t)).
      { intros unw2 ok2 unw2' s2' H. apply IH in H.
        destruct H as (news & t & Hr & Ht & Hp & Hs & Hnew).
        cbn [roots trace roots_as_paths self_test log with_env] in *.
        exists news, (Watch root (Some inner1) wid :: t).
        split; [exact Hr|]. split; [rewrite Ht, <- app_assoc; reflexivity|].
        split; [exact Hp|]. split; [exact Hs|].
        intros r Hin. destruct (Hnew r Hin) as [Hok [m Hm]].
        split; [exact Hok|]. exists m. right. exact Hm. }
      destruct (wid =? ERR_ABORT).
      * unfold ret. intros H. inversion H; subst.
        exists [], [Watch root (Some inner1) wid]. cbn [map].
        rewrite app_nil_r. repeat split; contradiction.
      * destruct (negb (wid =? ERR_IGNORE)); apply Hrest.
Qed.

(** [update_roots] never changes a record it keeps: every record found in
    [roots] afterwards was there before, or was pushed by this update with
    the id the engine returned for it. *)
Lemma update_roots_keeps_records new_roots (s : state) ok s' :
  update_roots new_roots s = Done ok s' ->
  forall r, In (Some r) (roots s') ->
            In (Some r) (roots s) \/
            ((0 <= id r \/ id r = ERR_MISSING) /\
             exists m, In (Watch (path r) (Some m) (id r)) (trace s')).
Proof.
  intros Hrun r Hin. destruct (refused new_roots) eqn:Href.
  - left. revert r Hin.
    rewrite (update_roots_refusing _ s Href) in Hrun.
    set (s0 := if self_test s then s else log (Printf REFUSAL []) s) in *.
    assert (Hs0 : roots s0 = roots s) by (subst s0; destruct (self_test s); reflexivity).
    unfold bind at 1 in Hrun.
    destruct (unregister_roots (roots_as_paths s) s0) as [[] s2|f s2] eqn:E;
      [|discriminate].
    apply unregister_roots_done in E.
    destruct E as (calls & _ & _ & _ & _ & _ & Hsub & _).
    inversion Hrun; subst. cbn [roots with_paths]. rewrite <- Hs0. exact Hsub.
  - destruct (sys_mtab (env s)) as [ents|] eqn:Hm.
    + unfold update_roots in Hrun. unfold refused in Href. rewrite Href in Hrun.
      unfold bind at 1 in Hrun.
      rewrite (unwatchable_mounts_opened s ents Hm) in Hrun.
      unfold bind at 1, gets at 1 in Hrun. unfold bind at 1 in Hrun.
      match type of Hrun with
      | context [register_roots ?a ?u ?m ?st] =>
          destruct (register_roots a u m st) as [[ok1 unw1] s1|f s1] eqn:E
      end; [|discriminate].
      apply register_roots_appends in E.
      destruct E as (news & t & Hr & Ht & Hp & Hs & Hnew).
      cbn [roots trace log] in Hr, Ht.
      assert (Hmid : In (Some r) (roots s1) ->
                     In (Some r) (roots s) \/
                     ((0 <= id r \/ id r = ERR_MISSING) /\
                      exists m, In (Watch (path r) (Some m) (id r)) t)).
      { rewrite Hr. intros H. apply in_app_or in H. destruct H as [H|H].
        - left. exact H.
        - right. apply in_map_iff in H. destruct H as (r0 & Heq & H0).
          inversion Heq; subst. apply Hnew. exact H0. }
      destruct ok1; cbn [negb] in Hrun.
      * unfold bind at 1 in Hrun.
        destruct (unregister_roots _ s1) as [[] s2|f s2] eqn:E2; [|discriminate].
        apply unregister_roots_done in E2.
        destruct E2 as (calls & Htr2 & _ & _ & _ & _ & Hsub & _).
        rewrite update_roots_report in Hrun. inversion Hrun; subst. clear Hrun.
        assert (Hin2 : In (Some r) (roots s2))
          by (destruct (self_test s2); exact Hin).
        destruct (Hmid (Hsub r Hin2)) as [H|[Hok [m Hw]]]; [left; exact H|].
        right. split; [exact Hok|]. exists m.
        assert (In (Watch (path r) (Some m) (id r)) (trace s2)).
        { rewrite Htr2, Ht. apply in_or_app. left. apply in_or_app. right.
          exact Hw. }
        destruct (self_test s2); cbn [trace with_paths log_all];
          [assumption | apply in_or_app; left; assumption].
      * inversion Hrun; subst.
        destruct (Hmid Hin) as [H|[Hok [m Hw]]]; [left; exact H|].
        right. split; [exact Hok|]. exists m. rewrite Ht.
        apply in_or_app. right. exact Hw.
    + rewrite (update_roots_unreadable _ s Href Hm) in Hrun.
      inversion Hrun; subst. left. exact Hin.
Qed.

Lemma tick_visits_ids rs rs' t :
  tick_visits rs rs' t ->
  Forall2 (fun r r' =>
             path r' = path r /\
             (0 <= id r -> id r' = id r) /\
             (id r < 0 ->
              id r' = id r \/
              (In (Stat (UNFLATTEN (path r)) true) t /\
               In (Watch (path r) None (id r')) t)))
          rs rs'.
Proof.
  induction 1 as [|r rs rs' t Hid _ IH|r rs rs' t Hid _ IH|r wid rs rs' t Hid _ IH].
  - constructor.
  - constructor; [repeat split; auto; lia|exact IH].
  - constructor; [repeat split; auto|].
    eapply Forall2_impl; [|exact IH]. cbn beta.
    intros a b (Hp & Hw & Hm). repeat split; auto.
    intros Ha. destruct (Hm Ha) as [Hsame|[H1 H2]]; [left; exact Hsame|].
    right. split; right; assumption.
  - constructor.
    + cbn [path id]. repeat split; [lia|]. intros _. right.
      split; [left; reflexivity | right; left; reflexivity].
    + eapply Forall2_impl; [|exact IH]. cbn beta.
      intros a b (Hp & Hw & Hm). repeat split; auto.
      intros Ha. destruct (Hm Ha) as [Hsame|[H1 H2]]; [left; exact Hsame|].
      right. split; do 4 right; assumption.
Qed.

Lemma tick_visits_reports rs rs' t :
  tick_visits rs rs' t ->
  (forall p wid, In (Watch p None wid) t ->
                 In (CREATE_of p) t /\ In (CHANGE_of p) t) /\
  (forall bytes, In (Write bytes) t ->
                 exists p wid, In (Watch p None wid) t /\
                               (Write bytes = CREATE_of p \/
                                Write bytes = CHANGE_of p)).
Proof.
  induction 1 as [|r rs rs' t Hid _ IH|r rs rs' t Hid _ IH|r wid rs rs' t Hid _ IH].
  - split; intros; contradiction.
  - exact IH.
  - destruct IH as [IH1 IH2]. split.
    + intros p wid [Hin|Hin]; [discriminate|].
      destruct (IH1 p wid Hin). split; right; assumption.
    + intros bytes [Hin|Hin]; [discriminate|].
      destruct (IH2 bytes Hin) as (p & wid & Hw & Hb).
      exists p, wid. split; [right; exact Hw | exact Hb].
  - destruct IH as [IH1 IH2]. split.
    + intros p wid0 [Hin|[Hin|[Hin|[Hin|Hin]]]]; try discriminate.
      * inversion Hin; subst. split.
        -- right. right. left. reflexivity.
        -- right. right. right. left. reflexivity.
      * destruct (IH1 p wid0 Hin). split; do 4 right; assumption.
    + intros bytes [Hin|[Hin|[Hin|[Hin|Hin]]]]; try discriminate.
      * exists (path r), wid. split; [right; left; reflexivity|].
        left. symmetry. exact Hin.
      * exists (path r), wid. split; [right; left; reflexivity|].
        right. symmetry. exact Hin.
      * destruct (IH2 bytes Hin) as (p & wid0 & Hw & Hb).
        exists p, wid0. split; [do 4 right; exact Hw | exact Hb].
Qed.

(** X30: over a [roots] vector without null elements, which no run of the
    daemon has, a root goes from missing to watched only in an idle tick,
    exactly when the tick's [stat] of its effective path succeeds and the
    [watch] call that follows returns a non-negative id (the id becomes
    whatever [watch] returns); it goes from watched to missing (id -1,
    after [unwatch]) only in [check_root_removal], which the callback runs
    exactly for delete-self/move-self events, and exactly when the event's
    path equals its effective path; [update_roots] changes no record it
    keeps. *)
Theorem root_transitions_by_design (s : state) rs :
  roots s = map Some rs ->
  (exists s' rs' t,
      check_missing_roots s = Done tt s' /\
      roots s' = map Some rs' /\
      trace s' = trace s ++ t /\
      tick_visits rs rs' t /\
      Forall2 (fun r r' =>
                 path r' = path r /\
                 (0 <= id r -> id r' = id r) /\
                 (id r < 0 ->
                  id r' = id r \/
                  (In (Stat (UNFLATTEN (path r)) true) t /\
                   In (Watch (path r) None (id r')) t)))
              rs rs')
  /\ (forall p,
        exists s',
          check_root_removal p s = Done tt s' /\
          roots s' = map Some (map (vanish p) rs) /\
          trace s' = trace s ++ flat_map (vanish_events p) rs)
  /\ (forall p ev,
        if has_self_bits ev
        then exists s1, roots s1 = roots s /\
                        inotify_callback p ev s = check_root_removal p s1
        else exists s', inotify_callback p ev s = Done tt s' /\
                        roots s' = roots s)
  /\ (forall new_roots ok s',
        update_roots new_roots s = Done ok s' ->
        forall r, In (Some r) (roots s') ->
                  In (Some r) (roots s) \/
                  ((0 <= id r \/ id r = ERR_MISSING) /\
                   exists m, In (Watch (path r) (Some m) (id r)) (trace s'))).
Proof.
  intros Hroots. split; [|split; [|split]].
  - destruct (check_missing_roots_visits s rs Hroots)
      as (s' & rs' & t & Hrun & Hr & Ht & Hv).
    exists s', rs', t. repeat split; try assumption.
    apply tick_visits_ids. exact Hv.
  - intros p. apply check_root_removal_vanishes. exact Hroots.
  - intros p ev. destruct (has_self_bits ev) eqn:Hbits.
    + destruct (inotify_callback_split p ev s) as (s1 & [H1 _] & Hrun).
      rewrite Hbits in Hrun. exists s1. split; assumption.
    + apply inotify_callback_other. exact Hbits.
  - intros new_roots ok s'. apply update_roots_keeps_records.
Qed.

(** X29: over a [roots] vector without null elements, which no run of the
    daemon has, an idle tick [stat]s every missing root; where that
    succeeds it calls [watch] with the root's path and no mount list,
    stores the answer as the id, and writes CREATE and CHANGE for the
    effective path whatever the answer was; it writes nothing else. *)
Theorem tick_reports_after_every_watch (s : state) rs :
  roots s = map Some rs ->
  exists s' rs' t,
    check_missing_roots s = Done tt s' /\
    roots s' = map Some rs' /\
    trace s' = trace s ++ t /\
    tick_visits rs rs' t /\
    (forall p wid, In (Watch p None wid) t ->
                   In (CREATE_of p) t /\ In (CHANGE_of p) t) /\
    (forall bytes, In (Write bytes) t ->
                   exists p wid, In (Watch p None wid) t /\
                                 (Write bytes = CREATE_of p \/
                                  Write bytes = CHANGE_of p)).
Proof.
  intros Hroots.
  destruct (check_missing_roots_visits s rs Hroots)
    as (s' & rs' & t & Hrun & Hr & Ht & Hv).
  destruct (tick_visits_reports rs rs' t Hv) as [Hw Hb].
  exists s', rs', t.
  split; [exact Hrun|]. split; [exact Hr|]. split; [exact Ht|].
  split; [exact Hv|]. split; [exact Hw | exact Hb].
Qed.

(** ** The current set is never the refused singleton *)

Lemma update_roots_paths new_roots (s : state) ok s' :
  update_roots new_roots s = Done ok s' ->
  roots_as_paths s' = PathSet.empty \/
  (roots_as_paths s' = new_roots /\ refused new_roots = false) \/
  roots_as_paths s' = roots_as_paths s.
Proof.
  intros Hrun. destruct (refused new_roots) eqn:Href.
  - left. rewrite (update_roots_refusing _ s Href) in Hrun.
    unfold bind at 1 in Hrun.
    destruct (unregister_roots (roots_as_paths s) _) as [[] s2|f s2];
      [|discriminate].
    inversion Hrun; subst. reflexivity.
  - destruct (sys_mtab (env s)) as [ents|] eqn:Hm.
    + right. left. split; [|reflexivity].
      rewrite (update_roots_registering _ ents s Href Hm) in Hrun.
      destruct (existsb valid_root _); [discriminate|].
      unfold bind at 1 in Hrun.
      destruct (unregister_roots _ (log (Mtab (Some ents)) s)) as [[] s2|f s2];
        [|discriminate].
      rewrite update_roots_report in Hrun. inversion Hrun; subst. reflexivity.
    + right. right. rewrite (update_roots_unreadable _ s Href Hm) in Hrun.
      inversion Hrun; subst. reflexivity.
Qed.

Lemma update_roots_not_refused new_roots (s : state) ok s' :
  refused (roots_as_paths s) = false ->
  update_roots new_roots s = Done ok s' ->
  refused (roots_as_paths s') = false.
Proof.
  intros Hinv Hrun. apply update_roots_paths in Hrun.
  destruct Hrun as [->|[[-> H]| ->]]; [reflexivity | exact H | exact Hinv].
Qed.

Lemma read_input_not_refused (s : state) r s' :
  refused (roots_as_paths s) = false ->
  read_input s = Done r s' ->
  refused (roots_as_paths s') = false.
Proof.
  intros Hinv. unfold read_input, bind at 1.
  pose proof (read_stdin_frame s) as Hf.
  destruct (read_stdin s) as [line s1|f s1]; [|discriminate].
  assert (H1 : roots_as_paths s1 = roots_as_paths s) by (rewrite Hf; reflexivity).
  destruct line as [line|]; [|intros H; inversion H; subst; congruence].
  destruct (strcmp line "EXIT" =? 0); [intros H; inversion H; subst; congruence|].
  destruct (strcmp line "ROOTS" =? 0); [|intros H; inversion H; subst; congruence].
  unfold bind at 1.
  pose proof (read_roots_frame PathSet.empty s1) as Hg.
  destruct (read_roots PathSet.empty s1) as [c s2|f s2]; [|discriminate].
  assert (H2 : roots_as_paths s2 = roots_as_paths s) by (rewrite Hg; exact H1).
  destruct c as [new_roots|]; [|intros H; inversion H; subst; congruence].
  unfold bind at 1.
  destruct (update_roots new_roots s2) as [ok s3|f s3] eqn:E; [|discriminate].
  apply update_roots_not_refused in E; [|congruence].
  intros H; inversion H; subst. exact E.
Qed.

Lemma reachable_not_refused (s : state) :
  reachable s -> refused (roots_as_paths s) = false.
Proof.
  induction 1 as [test input w
                 | s nr ok s' Hreach IH Hrun
                 | s r s' Hreach IH Hrun
                 | s p ev s' Hreach IH Hrun
                 | s s' Hreach IH Hrun
                 | s f w Hreach IH].
  - reflexivity.
  - exact (update_roots_not_refused nr s ok s' IH Hrun).
  - exact (read_input_not_refused s r s' IH Hrun).
  - destruct (inotify_callback_split p ev s) as (s1 & [H1 H2] & E).
    rewrite E in Hrun. destruct (has_self_bits ev).
    + destruct (check_root_removal_null p s1) as [s2 E2]; [|congruence].
      rewrite H1, (reachable_roots s Hreach). left. reflexivity.
    + destruct (has_bits ev IN_UNMOUNT).
      * unfold output in Hrun. destruct (self_test s1);
          inversion Hrun; subst; cbn [roots_as_paths log]; congruence.
      * inversion Hrun; subst. congruence.
  - destruct (check_missing_roots_null s) as [s1 E]; [|congruence].
    rewrite (reachable_roots s Hreach). left. reflexivity.
  - exact IH.
Qed.

(** ** The mount scan over a vector without null elements *)

Lemma scan_mounts_without_nulls u ms : forall unw inner (s : state),
  exists unw' inner',
    scan_mounts u (map Some ms) unw inner s =
      Done (existsb (fun m => is_parent_path m u) ms, unw', inner') s /\
    (existsb (fun m => is_parent_path m u) ms = true -> In (Some u) unw') /\
    (existsb (fun m => is_parent_path m u) ms = false ->
     unw' = unw ++ map Some (filter (is_parent_path u) ms) /\
     inner' = inner ++ map Some (filter (is_parent_path u) ms) /\
     ~ In u (filter (is_parent_path u) ms)).
Proof.
  induction ms as [|m ms IH]; intros unw inner s.
  - exists unw, inner. cbn. unfold ret. rewrite !app_nil_r.
    split; [reflexivity|]. split; [discriminate|]. auto.
  - cbn [map scan_mounts existsb filter]. unfold bind at 1. cbn [deref].
    unfold ret at 1. destruct (is_parent_path m u) eqn:Habove.
    + eexists. eexists. split; [reflexivity|]. cbn [orb].
      split; [|discriminate]. intros _. apply in_or_app. right. left.
      reflexivity.
    + cbn [orb]. destruct (is_parent_path u m) eqn:Hunder.
      * destruct (IH (unw ++ [Some m]) (inner ++ [Some m]) s)
          as (unw' & inner' & Hrun & Hskip & Hkeep).
        exists unw', inner'. split; [exact Hrun|]. split; [exact Hskip|].
        intros Hno. destruct (Hkeep Hno) as (-> & -> & Hnot).
        cbn [map]. rewrite <- !app_assoc. repeat split.
        intros [->|Hin]; [|contradiction].
        rewrite Habove in Hunder. discriminate.
      * destruct (IH unw inner s) as (unw' & inner' & Hrun & Hskip & Hkeep).
        exists unw', inner'. split; [exact Hrun|]. split; [exact Hskip|].
        exact Hkeep.
Qed.

(** ** The refusal of the whole tree *)

Lemma refusal_with_empty_set new_roots (s : state) :
  refused new_roots = true -> roots_as_paths s = PathSet.empty ->
  exists s',
    update_roots new_roots s = Done true s' /\
    roots s' = roots s /\ roots_as_paths s' = PathSet.empty /\
    trace s' = trace s ++ (if self_test s then [] else [Printf REFUSAL []]).
Proof.
  intros Href Hempty. rewrite (update_roots_refusing _ s Href), Hempty.
  unfold bind at 1. rewrite unregister_roots_nothing.
  eexists. split; [reflexivity|].
  destruct (self_test s); cbn [roots roots_as_paths trace with_paths log];
    rewrite ?app_nil_r; auto.
Qed.

Lemma refusal_with_roots new_roots (s : state) :
  refused new_roots = true -> roots_as_paths s <> PathSet.empty ->
  In None (roots s) ->
  exists s', update_roots new_roots s = Fault NullDeref s'.
Proof.
  intros Href Hne Hin. rewrite (update_roots_refusing _ s Href).
  unfold bind at 1.
  destruct (unregister_roots_null (roots_as_paths s)
              (if self_test s then s else log (Printf REFUSAL []) s) Hne)
    as [s' E].
  - destruct (self_test s); exact Hin.
  - rewrite E. eexists. reflexivity.
Qed.

End RegistryFacts.

(** ** The line reader *)

Section LineReaderFacts.

Lemma fgets_scan_line line : forall room rest,
  (strlen line < room)%nat -> has_byte LF line = false ->
  fgets_scan room (line ++ nl ++ rest)%string = ((line ++ nl)%string, rest, false).
Proof.
  induction line as [|c line IH]; intros room rest Hroom Hlf.
  - destruct room; [unfold strlen in Hroom; cbn in Hroom; lia|]. reflexivity.
  - destruct room; [unfold strlen in Hroom; cbn in Hroom; lia|].
    cbn [has_byte] in Hlf. apply orb_false_iff in Hlf. destruct Hlf as [Hc Hlf].
    cbn [append fgets_scan]. rewrite Hc.
    change (line ++ String LF rest)%string with (line ++ nl ++ rest)%string.
    rewrite IH; [reflexivity | unfold strlen in *; cbn in Hroom; lia | exact Hlf].
Qed.

Lemma c_str_clean s : has_byte NUL s = false -> c_str s = s.
Proof.
  induction s as [|c s IH]; cbn [has_byte c_str]; [reflexivity|].
  intros H. apply orb_false_iff in H. destruct H as [Hc Hs].
  rewrite Hc, IH by exact Hs. reflexivity.
Qed.

Lemma has_byte_app c s t : has_byte c (s ++ t)%string = has_byte c s || has_byte c t.
Proof.
  induction s as [|a s IH]; cbn [append has_byte]; [reflexivity|].
  rewrite IH, orb_assoc. reflexivity.
Qed.

Lemma truncate_at_app line t : truncate_at (strlen line) (line ++ t)%string = line.
Proof.
  unfold truncate_at, strlen.
  induction line as [|c line IH]; cbn [String.length append substring].
  - destruct t; reflexivity.
  - rewrite IH. reflexivity.
Qed.

(** What [read_line] does to a line that fits the buffer: it takes the
    bytes up to the line feed and removes the line feed, nothing else. *)
Lemma read_line_strips_lf line rest :
  (strlen line < INPUT_BUF_LEN - 1)%nat ->
  has_byte LF line = false -> has_byte NUL line = false ->
  read_line (mkFILE (line ++ nl ++ rest)%string false) =
  (Ok (Some line), mkFILE rest false).
Proof.
  intros Hlen Hlf Hnul. unfold read_line, fgets. cbn [unread eof].
  rewrite (fgets_scan_line line _ rest Hlen Hlf).
  assert (Hc : c_str (line ++ nl) = (line ++ nl)%string).
  { apply c_str_clean. rewrite has_byte_app, Hnul. reflexivity. }
  destruct (line ++ nl)%string as [|b bs] eqn:Hbuf.
  { destruct line; discriminate. }
  cbn [orb eof]. rewrite Hc, <- Hbuf.
  rewrite strlen_app. change (strlen nl) with 1%nat.
  rewrite Nat.add_1_r. rewrite char_at_app. cbn [char_at get nl].
  rewrite Ascii.eqb_refl, truncate_at_app. reflexivity.
Qed.

(** A carriage return before the line feed is part of what is returned. *)
Lemma read_line_keeps_cr line rest :
  (strlen line < INPUT_BUF_LEN - 2)%nat ->
  has_byte LF line = false -> has_byte NUL line = false ->
  read_line (mkFILE (line ++ String CR nl ++ rest)%string false) =
  (Ok (Some (line ++ String CR EmptyString)%string), mkFILE rest false).
Proof.
  intros Hlen Hlf Hnul.
  replace (line ++ String CR nl ++ rest)%string
    with ((line ++ String CR EmptyString) ++ nl ++ rest)%string.
  - apply read_line_strips_lf.
    + rewrite strlen_app. change (strlen (String CR EmptyString)) with 1%nat.
      unfold INPUT_BUF_LEN in *. lia.
    + rewrite has_byte_app, Hlf. reflexivity.
    + rewrite has_byte_app, Hnul. reflexivity.
  - clear. induction line as [|c line IH]; cbn [append]; [reflexivity|].
    rewrite IH. reflexivity.
Qed.

Lemma read_line_at_end e : read_line (mkFILE EmptyString e) = (Ok None, mkFILE EmptyString true).
Proof. unfold read_line, fgets. cbn. rewrite orb_true_r. reflexivity. Qed.

End LineReaderFacts.

(** ** Runs on the concrete platform *)

Section Scenarios.

Import Sim.

(** C8 (the code differs): the line [ROOTS] sent with a CR/LF terminator
    comes back from [read_line] with the carriage return still attached;
    only the line feed is trimmed. *)
Theorem read_line_returns_the_carriage_return :
  read_line (mkFILE ("ROOTS" ++ String CR nl ++ "/tmp/x" ++ nl)%string false)
  = (Ok (Some ("ROOTS" ++ String CR EmptyString)%string),
     mkFILE ("/tmp/x" ++ nl)%string false).
Proof. vm_compute. reflexivity. Qed.

(** C1 (the code differs): for the single existing, empty, mount-free root
    [/tmp/x], [update_roots] ends in a null dereference right after reading
    the mount table, and so does [read_input] on the lines [ROOTS],
    [/tmp/x], [#]; nothing is written to stdout. *)
Theorem single_root_update_faults :
  update_roots ["/tmp/x"] (booted [] plain)
  = Fault NullDeref (log (Mtab (mounted plain)) (booted [] plain))
  /\ exists s',
       read_input (booted ["ROOTS"; "/tmp/x"; "#"] plain) = Fault NullDeref s' /\
       trace s' = [Mtab (mounted plain)] /\
       stdout_calls (trace s') = [].
Proof.
  split; [vm_compute; reflexivity|].
  eexists. split; [vm_compute; reflexivity|]. split; reflexivity.
Qed.

(** C2 (the code differs): with an nfs mount at [/tmp/x/mnt], registering
    the root [/tmp/x] ends in a null dereference at the first element of
    the mounts vector: the engine is never asked to watch the root with the
    mount as exclude, and no UNWATCHEABLE block is written. *)
Theorem root_over_mount_faults :
  unwatchable_mounts (booted [] with_nfs)
  = Done (Some (repeat None 20 ++ [Some "/tmp/x/mnt"]))
         (log (Mtab (mounted with_nfs)) (booted [] with_nfs))
  /\ update_roots ["/tmp/x"] (booted [] with_nfs)
     = Fault NullDeref (log (Mtab (mounted with_nfs)) (booted [] with_nfs)).
Proof. split; vm_compute; reflexivity. Qed.

(** C3 (the code differs): once the current set is not empty (here after
    the update to the single, relative root [rel]), the refusal of ["/"]
    prints its block and then ends in a null dereference inside
    [unregister_roots]; it does not return, and the current set is not
    emptied. *)
Theorem refusal_after_update_faults :
  exists s1 s2,
    read_input (booted ["ROOTS"; "rel"; "#"; "ROOTS"; "/"; "#"] plain)
      = Done ERR_CONTINUE s1 /\
    roots_as_paths s1 = ["rel"] /\
    read_input s1 = Fault NullDeref s2 /\
    trace s2 = trace s1 ++ [Printf REFUSAL []] /\
    roots_as_paths s2 = ["rel"] /\
    update_roots ["/"] (with_paths ["rel"] (booted [] plain))
      = Fault NullDeref
          (with_roots (repeat None 19)
             (log (Printf REFUSAL []) (with_paths ["rel"] (booted [] plain)))).
Proof.
  eexists. eexists. split; [vm_compute; reflexivity|].
  split; [reflexivity|]. split; [vm_compute; reflexivity|].
  split; [reflexivity|]. split; [reflexivity|]. vm_compute. reflexivity.
Qed.

(** C7 fails as stated: the refusal of the single root [/] prints [/] as
    unwatchable and leaves the current set empty; the update to that same,
    empty, set then calls neither [watch] nor [unwatch], but what it prints
    is another block. *)
Lemma same_set_after_refusal_prints_another_block :
  update_roots ["/"] (booted [] plain) = Done true turned_down /\
  reachable turned_down /\
  roots_as_paths turned_down = PathSet.empty /\
  update_roots (roots_as_paths turned_down) turned_down =
    Done true (log_all (Mtab (mounted plain) :: null_block) turned_down) /\
  stdout_calls (Mtab (mounted plain) :: null_block) <>
  stdout_calls [Printf REFUSAL []].
Proof.
  assert (Hrun : update_roots ["/"] (booted [] plain) = Done true turned_down)
    by (vm_compute; reflexivity).
  split; [exact Hrun|]. split.
  { exact (reach_update (booted [] plain) ["/"] true turned_down
             (reach_init false (pipe []) plain) Hrun). }
  split; [reflexivity|]. split; [vm_compute; reflexivity|].
  vm_compute. discriminate.
Qed.

(** The statements above that carry hypotheses, run on concrete states. *)

Lemma sized_vectors_witness :
  refused ["/tmp/x"] = false /\
  update_roots ["/tmp/x"] (booted [] with_nfs)
  = Fault NullDeref (log (Mtab (mounted with_nfs)) (booted [] with_nfs)).
Proof.
  split; [reflexivity|].
  apply (sized_vectors_put_nulls_first (booted [] with_nfs) ["/tmp/x"]
           [mkMnt "/" "ext4"; mkMnt "/tmp/x/mnt" "nfs"]);
    reflexivity.
Defined.

Lemma null_roots_witness :
  reachable settled /\
  exists s', check_missing_roots settled = Fault NullDeref s'.
Proof.
  assert (Hreach : reachable settled).
  { apply (reach_update (booted [] plain) ["rel"] true settled).
    - apply reach_init.
    - vm_compute. reflexivity. }
  split; [exact Hreach|].
  apply (null_roots_are_permanent_and_fatal settled Hreach).
Defined.

Lemma noop_update_witness :
  refused ["rel"] = false /\
  exists ok s' t0 t1,
    update_roots ["rel"] settled = Done ok s' /\ roots s' = roots settled /\
    trace settled = trace (booted [] plain) ++ t0 /\
    trace s' = trace settled ++ t1 /\
    stdout_calls t1 = if ok then stdout_calls t0 else [].
Proof.
  split; [reflexivity|].
  destruct (update_to_current_set_is_noop settled ["rel"])
    as (ok & s' & Hrun & Hroots & _ & _ & _ & Hprevious).
  - intros x. reflexivity.
  - reflexivity.
  - destruct (Hprevious (booted [] plain) ["rel"]) as (t0 & t1 & H0 & H1 & Hout).
    + reflexivity.
    + vm_compute. reflexivity.
    + exists ok, s', t0, t1. split; [exact Hrun|]. split; [exact Hroots|].
      split; [exact H0|]. split; [exact H1 | exact Hout].
Defined.

Lemma root_transitions_witness :
  exists s',
    check_root_removal "/tmp/x" watching = Done tt s' /\
    roots s' = [Some (mkRoot "/tmp/x" (-1))] /\
    trace s' = [Unwatch 0; Write ("DELETE" ++ nl ++ "/tmp/x" ++ nl)%string].
Proof.
  destruct (root_transitions_by_design watching [mkRoot "/tmp/x" 0] eq_refl)
    as (_ & Hremoval & _).
  destruct (Hremoval "/tmp/x") as (s' & Hrun & Hroots & Htrace).
  exists s'. split; [exact Hrun|]. split; [exact Hroots | exact Htrace].
Defined.

Lemma tick_reports_witness :
  exists s' t,
    check_missing_roots stale = Done tt s' /\
    trace s' = trace stale ++ t /\
    In (Watch "/tmp/x" None ERR_CONTINUE) t /\
    In (CREATE_of "/tmp/x") t /\ In (CHANGE_of "/tmp/x") t.
Proof.
  destruct (tick_reports_after_every_watch stale [mkRoot "/tmp/x" ERR_MISSING] eq_refl)
    as (s' & rs' & t & Hrun & _ & Htrace & _ & Hreports & _).
  assert (Hwatch : In (Watch "/tmp/x" None ERR_CONTINUE) t).
  { pose proof Hrun as E. vm_compute in E. inversion E as [Hs]. clear E.
    rewrite <- Hs in Htrace. cbn [trace] in Htrace.
    change (trace stale) with (@nil event) in Htrace. cbn [app] in Htrace.
    rewrite <- Htrace. right. left. reflexivity. }
  exists s', t. split; [exact Hrun|]. split; [exact Htrace|].
  split; [exact Hwatch|]. exact (Hreports "/tmp/x" ERR_CONTINUE Hwatch).
Defined.

End Scenarios.

(** ** The comparator, the path order and the path sets *)

Section OrderFacts.

Lemma byte_diff_gt c1 c2 : c1 <> c2 -> (byte_diff c1 c2 > 0 <-> uchar c1 > uchar c2).
Proof.
  intros Hne. unfold byte_diff.
  assert (uchar c1 <> uchar c2) by (intros H; apply Hne, uchar_inj, H).
  destruct (uchar c1 <? uchar c2) eqn:E.
  - apply Z.ltb_lt in E. lia.
  - apply Z.ltb_ge in E. lia.
Qed.

Lemma strcmp_gt_trans a : forall b c,
  strcmp a b > 0 -> strcmp b c > 0 -> strcmp a c > 0.
Proof.
  induction a as [|c1 r1 IH]; intros [|c2 r2] [|c3 r3]; cbn [strcmp];
    try lia.
  destruct (Ascii.eqb_spec c1 c2) as [->|H12];
    destruct (Ascii.eqb_spec c2 c3) as [->|H23].
  - apply IH.
  - intros _ H. exact H.
  - destruct (Ascii.eqb_spec c1 c3) as [->|_]; [contradiction|].
    intros H _. exact H.
  - intros H1 H2. apply byte_diff_gt in H1; [|exact H12].
    apply byte_diff_gt in H2; [|exact H23].
    destruct (Ascii.eqb_spec c1 c3) as [->|H13]; [lia|].
    apply byte_diff_gt; [exact H13 | lia].
Qed.

Lemma string_cmp_irrefl a : string_cmp a a = false.
Proof. unfold string_cmp. rewrite strcmp_refl. reflexivity. Qed.

Lemma string_cmp_trans a b c :
  string_cmp a b = true -> string_cmp b c = true -> string_cmp a c = true.
Proof.
  unfold string_cmp. rewrite !Z.gtb_ltb, !Z.ltb_lt. intros H1 H2.
  apply Z.gt_lt. apply (strcmp_gt_trans a b c); lia.
Qed.

Lemma string_cmp_asym a b : string_cmp a b = true -> string_cmp b a = false.
Proof.
  unfold string_cmp. rewrite (strcmp_flip a b), !Z.gtb_ltb, Z.ltb_lt.
  intros H. apply Z.ltb_ge. lia.
Qed.

Lemma string_cmp_total a b :
  a <> b -> string_cmp a b = true \/ string_cmp b a = true.
Proof.
  intros Hne. unfold string_cmp. rewrite (strcmp_flip a b), !Z.gtb_ltb, !Z.ltb_lt.
  assert (strcmp a b <> 0) by (intros H; apply Hne, strcmp_eq, H). lia.
Qed.

(** X1: the comparator of the root sets is a strict total order on strings:
    irreflexive, transitive, asymmetric, and any two different strings are
    ordered one way or the other. *)
Theorem string_cmp_is_a_strict_total_order :
  (forall a, string_cmp a a = false)
  /\ (forall a b c, string_cmp a b = true -> string_cmp b c = true ->
                    string_cmp a c = true)
  /\ (forall a b, string_cmp a b = true -> string_cmp b a = false)
  /\ (forall a b, a <> b -> string_cmp a b = true \/ string_cmp b a = true).
Proof.
  split; [exact string_cmp_irrefl|]. split; [exact string_cmp_trans|].
  split; [exact string_cmp_asym | exact string_cmp_total].
Qed.

Lemma append_assoc a b c : ((a ++ b) ++ c)%string = (a ++ b ++ c)%string.
Proof. induction a as [|x a IH]; cbn [append]; [reflexivity|]. rewrite IH. reflexivity. Qed.

(** [is_parent_path] in terms of the two strings. *)
Lemma is_parent_path_prefix parent child :
  is_parent_path parent child = true <->
  (child = parent \/ exists rest, child = (parent ++ String SLASH rest)%string).
Proof.
  unfold is_parent_path. rewrite andb_true_iff, orb_true_iff.
  rewrite Z.eqb_eq, strncmp_prefix, Nat.eqb_eq, Ascii.eqb_eq. split.
  - intros [[rest ->] H]. rewrite strlen_app, char_at_app in H.
    destruct rest as [|b rest].
    + left. apply app_empty_r.
    + destruct H as [H|H].
      * unfold strlen in H. cbn in H. lia.
      * right. exists rest. unfold char_at in H. cbn in H. subst b.
        reflexivity.
  - intros [->|[rest ->]].
    + split; [exists EmptyString; symmetry; apply app_empty_r | left; reflexivity].
    + split; [eexists; reflexivity | right].
      rewrite char_at_app. reflexivity.
Qed.

(** X2: [is_parent_path] is transitive and antisymmetric (with C6's
    reflexivity, a partial order on path strings). *)
Theorem is_parent_path_is_an_order :
  (forall a b c, is_parent_path a b = true -> is_parent_path b c = true ->
                 is_parent_path a c = true)
  /\ (forall a b, is_parent_path a b = true -> is_parent_path b a = true ->
                  a = b).
Proof.
  split.
  - intros a b c Hab Hbc. apply is_parent_path_prefix in Hab.
    apply is_parent_path_prefix in Hbc. apply is_parent_path_prefix.
    destruct Hab as [->|[r1 ->]]; [exact Hbc|].
    destruct Hbc as [->|[r2 ->]].
    + right. exists r1. reflexivity.
    + right. exists (r1 ++ String SLASH r2)%string.
      rewrite append_assoc. reflexivity.
  - intros a b Hab Hba. apply is_parent_path_prefix in Hab.
    apply is_parent_path_prefix in Hba.
    destruct Hab as [->|[r1 Hb]]; [reflexivity|].
    destruct Hba as [->|[r2 Ha]]; [reflexivity|].
    exfalso. apply (f_equal strlen) in Hb. apply (f_equal strlen) in Ha.
    rewrite strlen_app in Hb, Ha. unfold strlen in Hb, Ha. cbn in Hb, Ha.
    lia.
Qed.

(** X3: the root directory is a parent only of itself and of paths that
    begin with two slashes; no ordinary absolute path is under ["/"]. *)
Theorem root_directory_is_no_parent (child : string) :
  is_parent_path "/" child = true <->
  (child = "/" \/ exists rest, child = String SLASH (String SLASH rest)).
Proof. apply (is_parent_path_prefix "/" child). Qed.

Lemma ordered_strongly (s : PathSet.t) :
  ordered s -> StronglySorted (fun a b => string_cmp a b = true) s.
Proof.
  apply Sorted_StronglySorted. intros a b c. apply string_cmp_trans.
Qed.

Lemma insert_present x (s : PathSet.t) :
  ordered s -> In x s -> PathSet.insert x s = s.
Proof.
  intros Hs. apply ordered_strongly in Hs.
  induction Hs as [|y s Hs IH Hall]; intros Hin; [contradiction|].
  cbn [PathSet.insert]. destruct Hin as [->|Hin].
  - rewrite string_cmp_irrefl. reflexivity.
  - rewrite Forall_forall in Hall. pose proof (Hall x Hin) as Hyx.
    rewrite (string_cmp_asym y x Hyx), Hyx, IH by exact Hin. reflexivity.
Qed.

(** X4: [insert] behaves as insertion into an ordered set: the result is in
    comparator order, holds exactly the old elements and the key, and is
    the old sequence when the key was present. *)
Theorem insert_is_ordered_set_insertion (x : string) (s : PathSet.t) :
  ordered s ->
  ordered (PathSet.insert x s)
  /\ (forall y, In y (PathSet.insert x s) <-> y = x \/ In y s)
  /\ (In x s -> PathSet.insert x s = s)
  /\ PathSet.find x (PathSet.insert x s) = true.
Proof.
  intros Hs. split; [apply insert_sorted; exact Hs|].
  split; [intros y; apply insert_in|].
  split; [apply insert_present; exact Hs|].
  apply find_iff_in, insert_in. left. reflexivity.
Qed.

Lemma set_difference_ordered s1 s2 : forall diff,
  ordered diff -> ordered (set_difference s1 s2 diff).
Proof.
  unfold set_difference.
  induction s2 as [|e s2 IH]; intros diff Hd; cbn [fold_left]; [exact Hd|].
  apply IH. destruct (PathSet.find e s1); [exact Hd|].
  apply insert_sorted. exact Hd.
Qed.

(** X5: [set_difference s1 s2 diff] adds to [diff] exactly the elements of
    [s2] that are not in [s1] (note the order of the arguments), and keeps
    it in comparator order. *)
Theorem set_difference_is_s2_minus_s1 (s1 s2 diff : PathSet.t) :
  ordered diff ->
  ordered (set_difference s1 s2 diff)
  /\ (forall x, In x (set_difference s1 s2 diff) <->
                In x diff \/ (In x s2 /\ ~ In x s1)).
Proof.
  intros Hd. split; [apply set_difference_ordered; exact Hd|].
  intros x. apply set_difference_in.
Qed.

End OrderFacts.

(** ** The line reader at its edges *)

Section LineEdges.

Lemma fgets_scan_full chunk : forall rest,
  has_byte LF chunk = false ->
  fgets_scan (strlen chunk) (chunk ++ rest)%string = (chunk, rest, false).
Proof.
  induction chunk as [|c chunk IH]; intros rest Hlf; [reflexivity|].
  cbn [has_byte] in Hlf. apply orb_false_iff in Hlf. destruct Hlf as [Hc Hlf].
  change (strlen (String c chunk)) with (S (strlen chunk)).
  cbn [append fgets_scan]. rewrite Hc, IH by exact Hlf. reflexivity.
Qed.

Lemma fgets_scan_tail tail : forall room,
  (strlen tail < room)%nat -> has_byte LF tail = false ->
  fgets_scan room tail = (tail, EmptyString, true).
Proof.
  induction tail as [|c tail IH]; intros room Hroom Hlf.
  - destruct room; [unfold strlen in Hroom; cbn in Hroom; lia|]. reflexivity.
  - destruct room; [unfold strlen in Hroom; cbn in Hroom; lia|].
    cbn [has_byte] in Hlf. apply orb_false_iff in Hlf. destruct Hlf as [Hc Hlf].
    cbn [fgets_scan]. rewrite Hc, IH; [reflexivity | | exact Hlf].
    unfold strlen in *. cbn in Hroom. lia.
Qed.

Lemma char_at_absent c s : forall i,
  (i < strlen s)%nat -> has_byte c s = false -> char_at s i <> c.
Proof.
  induction s as [|a s IH]; intros i Hi Hc.
  - unfold strlen in Hi. cbn in Hi. lia.
  - cbn [has_byte] in Hc. apply orb_false_iff in Hc. destruct Hc as [Ha Hc].
    destruct i as [|i].
    + unfold char_at. cbn. intros ->. rewrite Ascii.eqb_refl in Ha. discriminate.
    + unfold char_at in *. cbn [get]. apply IH; [|exact Hc].
      unfold strlen in *. cbn in Hi. lia.
Qed.

(** X6: a line that fits the buffer is returned whole, with only its line
    feed removed (a carriage return before it stays), and the stream is
    left at the byte after the line feed. *)
Theorem read_line_returns_the_line (line rest : string) :
  (strlen line < INPUT_BUF_LEN - 1)%nat ->
  has_byte LF line = false -> has_byte NUL line = false ->
  read_line (mkFILE (line ++ nl ++ rest)%string false) =
  (Ok (Some line), mkFILE rest false).
Proof. apply read_line_strips_lf. Qed.

(** X7: a line of more than 2047 bytes is not truncated but split: the
    first call returns its first 2047 bytes and leaves the remainder in the
    stream for the next call. *)
Theorem read_line_splits_long_lines (chunk rest : string) :
  strlen chunk = (INPUT_BUF_LEN - 1)%nat ->
  has_byte LF chunk = false -> has_byte NUL chunk = false ->
  read_line (mkFILE (chunk ++ rest)%string false) =
  (Ok (Some chunk), mkFILE rest false).
Proof.
  intros Hlen Hlf Hnul. unfold read_line, fgets. cbn [unread eof].
  rewrite <- Hlen, (fgets_scan_full chunk rest Hlf).
  destruct chunk as [|b bs] eqn:Hchunk.
  { unfold strlen, INPUT_BUF_LEN in Hlen. cbn in Hlen. lia. }
  rewrite <- Hchunk in *. cbn [orb eof].
  rewrite (c_str_clean chunk Hnul).
  destruct (strlen chunk) as [|pos] eqn:Hn.
  { rewrite Hchunk in Hn. unfold strlen in Hn. cbn in Hn. lia. }
  destruct (Ascii.eqb_spec (char_at chunk pos) LF) as [Heq|_]; [|reflexivity].
  exfalso. apply (char_at_absent LF chunk pos); [lia | exact Hlf | exact Heq].
Qed.

Lemma read_line_drops_unterminated_tail_aux (tail : string) (e : bool) :
  (strlen tail < INPUT_BUF_LEN - 1)%nat -> has_byte LF tail = false ->
  read_line (mkFILE tail e) = (Ok None, mkFILE EmptyString true).
Proof.
  intros Hlen Hlf. unfold read_line, fgets. cbn [unread eof].
  rewrite (fgets_scan_tail tail _ Hlen Hlf).
  destruct tail; cbn [eof]; rewrite orb_true_r; reflexivity.
Qed.

(** X8: bytes after the last line feed are lost when the stream ends: with
    fewer than 2047 unterminated bytes left (possibly none), [read_line]
    consumes them all and returns null. *)
Theorem read_line_drops_unterminated_tail (tail : string) (e : bool) :
  (strlen tail < INPUT_BUF_LEN - 1)%nat -> has_byte LF tail = false ->
  read_line (mkFILE tail e) = (Ok None, mkFILE EmptyString true).
Proof. apply read_line_drops_unterminated_tail_aux. Qed.

Lemma c_str_app_nul s t : has_byte NUL s = true -> c_str (s ++ t)%string = c_str s.
Proof.
  induction s as [|c s IH]; cbn [has_byte append c_str]; [discriminate|].
  destruct (Ascii.eqb c NUL); [reflexivity|].
  cbn [orb]. intros H. rewrite IH by exact H. reflexivity.
Qed.

Lemma has_byte_c_str c s : has_byte c s = false -> has_byte c (c_str s) = false.
Proof.
  induction s as [|a s IH]; cbn [has_byte c_str]; [reflexivity|].
  intros H. apply orb_false_iff in H. destruct H as [Ha Hs].
  destruct (Ascii.eqb a NUL); [reflexivity|].
  cbn [has_byte]. rewrite Ha, IH by exact Hs. reflexivity.
Qed.

(** X9: of a line that fits the buffer [read_line] returns the bytes before
    the first NUL byte, and the rest of the line is lost.  A line that
    begins with NUL comes back as the empty string: for it the code
    computes the index -1 and tests the byte before the buffer, whose
    value does not change what is returned. *)
Theorem read_line_stops_at_first_nul (line rest : string) :
  (strlen line < INPUT_BUF_LEN - 1)%nat -> has_byte LF line = false ->
  read_line (mkFILE (line ++ nl ++ rest)%string false) =
  (Ok (Some (c_str line)), mkFILE rest false).
Proof.
  intros Hlen Hlf. destruct (has_byte NUL line) eqn:Hnul.
  2: { rewrite (c_str_clean line Hnul). apply read_line_strips_lf; assumption. }
  unfold read_line, fgets. cbn [unread eof].
  rewrite (fgets_scan_line line _ rest Hlen Hlf).
  destruct (line ++ nl)%string as [|b bs] eqn:Hbuf.
  { destruct line; discriminate. }
  cbn [orb eof]. rewrite <- Hbuf, (c_str_app_nul line nl Hnul).
  destruct (strlen (c_str line)) as [|pos] eqn:Hl; [reflexivity|].
  destruct (Ascii.eqb (char_at (c_str line) pos) LF) eqn:Hc; [|reflexivity].
  exfalso. apply Ascii.eqb_eq in Hc.
  apply (char_at_absent LF (c_str line) pos);
    [lia | apply has_byte_c_str; exact Hlf | exact Hc].
Qed.

End LineEdges.

(** ** Commands *)

Section CommandFacts.

Context {P : Platform}.

Lemma read_stdin_line (s : state) line rest :
  (strlen line < INPUT_BUF_LEN - 1)%nat ->
  has_byte LF line = false -> has_byte NUL line = false ->
  stdin s = mkFILE (line ++ nl ++ rest)%string false ->
  read_stdin s = Done (Some line) (with_stdin (mkFILE rest false) s).
Proof.
  intros Hlen Hlf Hnul Hin. unfold read_stdin.
  rewrite Hin, (read_line_strips_lf line rest Hlen Hlf Hnul). reflexivity.
Qed.

Lemma read_stdin_end (s : state) tail e :
  (strlen tail < INPUT_BUF_LEN - 1)%nat -> has_byte LF tail = false ->
  stdin s = mkFILE tail e ->
  read_stdin s = Done None (with_stdin (mkFILE EmptyString true) s).
Proof.
  intros Hlen Hlf Hin. unfold read_stdin.
  rewrite Hin, (read_line_drops_unterminated_tail_aux tail e Hlen Hlf).
  reflexivity.
Qed.

Lemma read_roots_step acc (s : state) :
  read_roots acc s =
  match read_stdin s with
  | Fault f s' => Fault f s'
  | Done None s' => Done None s'
  | Done (Some line) s' =>
      if (strlen line =? 0)%nat then Done None s'
      else if strcmp line "#" =? 0 then Done (Some acc) s'
      else read_roots (PathSet.insert (strip_slash line) acc) s'
  end.
Proof.
  funelim (read_roots acc s);
    match goal with
    | e : read_stdin _ = _ |- _ => rewrite e
    end; reflexivity.
Qed.

Lemma root_line_parts l :
  root_line l = true ->
  (strlen l =? 0)%nat = false /\ (strcmp l "#" =? 0) = false /\
  has_byte LF l = false /\ has_byte NUL l = false /\
  (strlen l < INPUT_BUF_LEN - 1)%nat.
Proof.
  unfold root_line. rewrite !andb_true_iff, !negb_true_iff, Nat.ltb_lt. tauto.
Qed.

Lemma text_of_cons l ls rest :
  (text_of (l :: ls) ++ rest)%string = (l ++ nl ++ (text_of ls ++ rest))%string.
Proof. cbn [text_of fold_right]. rewrite !append_assoc. reflexivity. Qed.

(** The ROOTS loop over well-formed lines closed by the terminator
    [closing]: [#], or the empty line. *)
Lemma read_roots_lines closing ls : forall acc (s : state) rest,
  Forall (fun l => root_line l = true) ls ->
  (closing = "#" \/ closing = EmptyString) ->
  stdin s = mkFILE (text_of (ls ++ [closing]) ++ rest)%string false ->
  read_roots acc s =
  Done (if (strlen closing =? 0)%nat then None else Some (collect ls acc))
       (with_stdin (mkFILE rest false) s).
Proof.
  induction ls as [|l ls IH]; intros acc s rest Hall Hclose Hin.
  - rewrite read_roots_step. cbn [app] in Hin. rewrite text_of_cons in Hin.
    rewrite (read_stdin_line s closing (text_of [] ++ rest)).
    + destruct Hclose as [->| ->]; reflexivity.
    + destruct Hclose as [->| ->]; unfold strlen, INPUT_BUF_LEN; cbn; lia.
    + destruct Hclose as [->| ->]; reflexivity.
    + destruct Hclose as [->| ->]; reflexivity.
    + exact Hin.
  - inversion Hall as [|? ? Hl Hrest]; subst.
    destruct (root_line_parts l Hl) as (Hne & Hhash & Hlf & Hnul & Hlen).
    rewrite read_roots_step. cbn [app] in Hin. rewrite text_of_cons in Hin.
    rewrite (read_stdin_line s l _ Hlen Hlf Hnul Hin), Hne, Hhash.
    rewrite (IH _ _ rest Hrest Hclose); reflexivity.
Qed.

Lemma read_roots_end ls : forall acc (s : state),
  Forall (fun l => root_line l = true) ls ->
  stdin s = mkFILE (text_of ls) false ->
  read_roots acc s = Done None (with_stdin (mkFILE EmptyString true) s).
Proof.
  induction ls as [|l ls IH]; intros acc s Hall Hin.
  - rewrite read_roots_step.
    rewrite (read_stdin_end s EmptyString false); [reflexivity | | | exact Hin].
    + unfold strlen, INPUT_BUF_LEN. cbn. lia.
    + reflexivity.
  - inversion Hall as [|? ? Hl Hrest]; subst.
    destruct (root_line_parts l Hl) as (Hne & Hhash & Hlf & Hnul & Hlen).
    rewrite read_roots_step.
    rewrite (read_stdin_line s l (text_of ls) Hlen Hlf Hnul Hin), Hne, Hhash.
    rewrite (IH _ _ Hrest); reflexivity.
Qed.

(** X10: the command [ROOTS], well-formed lines [l1 .. ln], [#] runs
    [update_roots] once, on the set of the lines with one trailing slash
    stripped, after consuming exactly the command; its result is
    [ERR_CONTINUE] when the update succeeds and [ERR_ABORT] otherwise. *)
Theorem read_input_runs_update_on_collected_set (s : state) ls rest :
  Forall (fun l => root_line l = true) ls ->
  stdin s = mkFILE (text_of ("ROOTS" :: ls ++ ["#"]) ++ rest)%string false ->
  read_input s =
  (ok <- update_roots (collect ls PathSet.empty) ;;
   ret (if ok then ERR_CONTINUE else ERR_ABORT))
    (with_stdin (mkFILE rest false) s).
Proof.
  intros Hall Hin. unfold read_input, bind at 1.
  rewrite text_of_cons in Hin.
  rewrite (read_stdin_line s "ROOTS" (text_of (ls ++ ["#"]) ++ rest)%string);
    [ | unfold strlen, INPUT_BUF_LEN; cbn; lia | reflexivity | reflexivity
      | exact Hin].
  change (strcmp "ROOTS" "EXIT" =? 0) with false.
  change (strcmp "ROOTS" "ROOTS" =? 0) with true. cbv iota.
  unfold bind at 1.
  rewrite (read_roots_lines "#" ls PathSet.empty _ rest Hall); 
    [reflexivity | left; reflexivity | reflexivity].
Qed.

(** X11: a ROOTS command cut short, by an empty line or by the end of the
    stream, makes [read_input] return 0 (the daemon exits): the roots read
    so far are dropped and [update_roots] is not run. *)
Theorem read_input_gives_up_on_cut_roots (s : state) ls :
  Forall (fun l => root_line l = true) ls ->
  (forall rest,
      stdin s = mkFILE (text_of ("ROOTS" :: ls ++ [EmptyString]) ++ rest)%string false ->
      read_input s = Done 0 (with_stdin (mkFILE rest false) s))
  /\ (stdin s = mkFILE (text_of ("ROOTS" :: ls)) false ->
      read_input s = Done 0 (with_stdin (mkFILE EmptyString true) s)).
Proof.
  intros Hall. split.
  - intros rest Hin. unfold read_input, bind at 1.
    rewrite text_of_cons in Hin.
    rewrite (read_stdin_line s "ROOTS" (text_of (ls ++ [EmptyString]) ++ rest)%string);
      [ | unfold strlen, INPUT_BUF_LEN; cbn; lia | reflexivity | reflexivity
        | exact Hin].
    change (strcmp "ROOTS" "EXIT" =? 0) with false.
    change (strcmp "ROOTS" "ROOTS" =? 0) with true. cbv iota.
    unfold bind at 1.
    rewrite (read_roots_lines EmptyString ls PathSet.empty _ rest Hall);
      [reflexivity | right; reflexivity | reflexivity].
  - intros Hin. unfold read_input, bind at 1.
    assert (Hin' : stdin s = mkFILE ("ROOTS" ++ nl ++ text_of ls)%string false)
      by exact Hin.
    rewrite (read_stdin_line s "ROOTS" (text_of ls));
      [ | unfold strlen, INPUT_BUF_LEN; cbn; lia | reflexivity | reflexivity
        | exact Hin'].
    change (strcmp "ROOTS" "EXIT" =? 0) with false.
    change (strcmp "ROOTS" "ROOTS" =? 0) with true. cbv iota.
    unfold bind at 1.
    rewrite (read_roots_end ls PathSet.empty _ Hall); reflexivity.
Qed.

(** X12: every other command leaves the daemon as it is apart from the
    consumed line: [EXIT] returns 0, any line that is neither [EXIT] nor
    [ROOTS] is skipped with [ERR_CONTINUE]. *)
Theorem read_input_other_commands (s : state) line rest :
  (strlen line < INPUT_BUF_LEN - 1)%nat ->
  has_byte LF line = false -> has_byte NUL line = false ->
  line <> "ROOTS" ->
  stdin s = mkFILE (line ++ nl ++ rest)%string false ->
  read_input s =
  Done (if String.eqb line "EXIT" then 0 else ERR_CONTINUE)
       (with_stdin (mkFILE rest false) s).
Proof.
  intros Hlen Hlf Hnul Hne Hin. unfold read_input, bind at 1.
  rewrite (read_stdin_line s line rest Hlen Hlf Hnul Hin).
  destruct (String.eqb_spec line "EXIT") as [->|Hexit]; [reflexivity|].
  assert (H1 : (strcmp line "EXIT" =? 0) = false).
  { apply Z.eqb_neq. intros H. apply strcmp_eq in H. contradiction. }
  assert (H2 : (strcmp line "ROOTS" =? 0) = false).
  { apply Z.eqb_neq. intros H. apply strcmp_eq in H. contradiction. }
  rewrite H1, H2. reflexivity.
Qed.

Lemma char_at_last p c : char_at (p ++ String c EmptyString)%string (strlen p) = c.
Proof. rewrite char_at_app. reflexivity. Qed.

(** X13: [strip_slash] removes one trailing slash and no more, and never
    empties a line: a line that is a single byte, or does not end in a
    slash, is kept as it is. *)
Theorem strip_slash_removes_one_slash :
  (forall p, p <> EmptyString ->
             strip_slash (p ++ String SLASH EmptyString)%string = p)
  /\ (forall l, (strlen l <= 1)%nat -> strip_slash l = l)
  /\ (forall p c, c <> SLASH ->
                  strip_slash (p ++ String c EmptyString)%string =
                  (p ++ String c EmptyString)%string).
Proof.
  split; [|split].
  - intros p Hne. unfold strip_slash.
    rewrite strlen_app. change (strlen (String SLASH EmptyString)) with 1%nat.
    replace (strlen p + 1 - 1)%nat with (strlen p) by lia.
    rewrite char_at_last, Ascii.eqb_refl, truncate_at_app.
    destruct p; [congruence|].
    replace (1 <? strlen (String a p) + 1)%nat with true; [reflexivity|].
    symmetry. apply Nat.ltb_lt. unfold strlen. cbn. lia.
  - intros l Hl. unfold strip_slash.
    replace (1 <? strlen l)%nat with false; [reflexivity|].
    symmetry. apply Nat.ltb_ge. exact Hl.
  - intros p c Hc. unfold strip_slash.
    rewrite strlen_app. change (strlen (String c EmptyString)) with 1%nat.
    replace (strlen p + 1 - 1)%nat with (strlen p) by lia.
    rewrite char_at_last.
    destruct (Ascii.eqb_spec c SLASH) as [->|_]; [contradiction|].
    rewrite andb_false_r. reflexivity.
Qed.

End CommandFacts.

(** ** Mount types, registration and removal *)

Section MountFacts.

Context {P : Platform}.

Lemma strncmp_begins p : forall c,
  strncmp c p (strlen p) = 0 <-> begins_with p c.
Proof.
  unfold begins_with, strlen.
  induction p as [|a p IH]; intros c; cbn [String.length strncmp].
  - split; [intros _; exists c; reflexivity | destruct c; reflexivity].
  - destruct c as [|b c]; cbn [strncmp].
    + split; [lia | intros [rest H]; discriminate].
    + rewrite (Ascii.eqb_sym b a). destruct (Ascii.eqb a b) eqn:E.
      * apply Ascii.eqb_eq in E. subst b. rewrite IH.
        split; intros [rest H]; exists rest.
        -- rewrite H. reflexivity.
        -- inversion H. reflexivity.
      * split.
        -- intros H. exfalso. exact (byte_diff_nonzero _ _ H).
        -- intros [rest H]. inversion H; subst.
           rewrite Ascii.eqb_refl in E. discriminate.
Qed.

Lemma is_watchable_false fs :
  is_watchable fs = false <->
  (begins_with "dev" fs \/ fs = "proc" \/ fs = "sysfs" \/ fs = "swap" \/
   (begins_with "fuse" fs /\ fs <> "fuseblk") \/ fs = "cifs" \/ fs = "nfs").
Proof.
  unfold is_watchable, MNTTYPE_SWAP, MNTTYPE_NFS.
  rewrite negb_false_iff, !orb_true_iff, andb_true_iff, negb_true_iff.
  rewrite !Z.eqb_eq, Z.eqb_neq, !strcmp_eq.
  rewrite (strncmp_begins "dev" fs), (strncmp_begins "fuse" fs). tauto.
Qed.

(** X14: a filesystem type is unwatchable exactly when it begins with
    [dev], is [proc], [sysfs], [swap], [cifs] or [nfs], or begins with
    [fuse] without being [fuseblk]; the type [ignore] is watchable, so the
    separate test for it in [unwatchable_mounts] never decides. *)
Theorem unwatchable_types (fs : string) (ents : list mntent) :
  (is_watchable fs = false <->
   (begins_with "dev" fs \/ fs = "proc" \/ fs = "sysfs" \/ fs = "swap" \/
    (begins_with "fuse" fs /\ fs <> "fuseblk") \/ fs = "cifs" \/ fs = "nfs"))
  /\ unwatchable_dirs ents =
     map mnt_dir (filter (fun ent => negb (is_watchable (mnt_type ent))) ents).
Proof.
  split; [apply is_watchable_false|].
  unfold unwatchable_dirs. f_equal. apply filter_ext. intros ent.
  destruct (strcmp (mnt_type ent) MNTTYPE_IGNORE =? 0) eqn:E; [|reflexivity].
  apply Z.eqb_eq, strcmp_eq in E. rewrite E. reflexivity.
Qed.

Lemma register_roots_invalid l : forall unw mounts (s : state),
  forallb (fun r => negb (valid_root r)) l = true ->
  register_roots l unw mounts s = Done (true, unw) s.
Proof.
  induction l as [|r l IH]; intros unw mounts s Hall; [reflexivity|].
  cbn [forallb] in Hall. apply andb_true_iff in Hall. destruct Hall as [Hr Hl].
  cbn [register_roots]. unfold valid_root in Hr. rewrite Hr.
  apply IH. exact Hl.
Qed.

(** X15: roots whose effective path does not begin with a slash are passed
    over by [register_roots] whatever the mounts are: no engine call, no
    record, and no entry in the unwatchable vector. *)
Theorem invalid_roots_are_dropped_silently l unw mounts (s : state) :
  forallb (fun r => negb (valid_root r)) l = true ->
  register_roots l unw mounts s = Done (true, unw) s.
Proof. apply register_roots_invalid. Qed.

(** X16: over a mounts vector without null elements the scan for one root
    sets [skip] exactly when some mount is at or above the root (and the
    root is then in the unwatchable vector); otherwise both vectors receive,
    in order, exactly the mounts that are under the root, none of which is
    the root itself. *)
Theorem mount_scan_without_nulls u ms unw inner (s : state) :
  exists unw' inner',
    scan_mounts u (map Some ms) unw inner s =
      Done (existsb (fun m => is_parent_path m u) ms, unw', inner') s /\
    (existsb (fun m => is_parent_path m u) ms = true -> In (Some u) unw') /\
    (existsb (fun m => is_parent_path m u) ms = false ->
     unw' = unw ++ map Some (filter (is_parent_path u) ms) /\
     inner' = inner ++ map Some (filter (is_parent_path u) ms) /\
     ~ In u (filter (is_parent_path u) ms)).
Proof. apply scan_mounts_without_nulls. Qed.

Lemma scan_mounts_inner u mounts : forall unw inner (s : state) skip unw' inner' s',
  scan_mounts u mounts unw inner s = Done (skip, unw', inner') s' ->
  exists pushed, inner' = inner ++ map Some pushed.
Proof.
  induction mounts as [|mount later IH]; intros unw inner s skip unw' inner' s'.
  - cbn [scan_mounts]. unfold ret. intros H. inversion H; subst.
    exists []. cbn [map]. rewrite app_nil_r. reflexivity.
  - cbn [scan_mounts]. unfold bind at 1.
    destruct mount as [m|]; [|discriminate]. cbn [deref]. unfold ret at 1.
    destruct (is_parent_path m u).
    + unfold ret. intros H. inversion H; subst.
      exists []. cbn [map]. rewrite app_nil_r. reflexivity.
    + destruct (is_parent_path u m).
      * intros H. apply IH in H. destruct H as [pushed ->].
        exists (m :: pushed). cbn [map]. rewrite <- app_assoc. reflexivity.
      * apply IH.
Qed.

Lemma register_roots_calls to_add : forall unw mounts (s : state) ok unw' s',
  register_roots to_add unw mounts s = Done (ok, unw') s' ->
  exists t, trace s' = trace s ++ t /\ Forall registers t.
Proof.
  induction to_add as [|root rest IH]; intros unw mounts s ok unw' s'.
  - cbn [register_roots]. unfold ret. intros H. inversion H; subst.
    exists []. rewrite app_nil_r. split; [reflexivity | constructor].
  - cbn [register_roots].
    destruct (negb (Ascii.eqb (char_at (UNFLATTEN root) 0) SLASH)); [apply IH|].
    unfold bind at 1.
    destruct (scan_mounts (UNFLATTEN root) mounts unw (repeat None 5) s)
      as [[[skip unw1] inner1] s1|f s1] eqn:E; [|discriminate].
    pose proof (scan_mounts_inner _ _ _ _ _ _ _ _ _ E) as [pushed Hinner].
    apply scan_mounts_pushes in E. destruct E as (-> & _ & _).
    destruct skip; [apply IH|].
    unfold bind at 1, watch at 1.
    destruct (engine_watch root (Some inner1) (env s)) as [wid w].
    assert (Hrest : forall unw2 ok2 unw2' (s2 s2' : state),
               trace s2 = trace s ++ [Watch root (Some inner1) wid] ->
               register_roots rest unw2 mounts s2 = Done (ok2, unw2') s2' ->
               exists t, trace s2' = trace s ++ t /\ Forall registers t).
    { intros unw2 ok2 unw2' s2 s2' Htr H. apply IH in H.
      destruct H as (t & Ht & Hall).
      exists (Watch root (Some inner1) wid :: t).
      split; [rewrite Ht, Htr, <- app_assoc; reflexivity|].
      constructor; [|exact Hall]. cbn. exists pushed. exact Hinner. }
    destruct ((wid >=? 0) || (wid =? ERR_MISSING)).
    + unfold bind at 1, modify at 1. apply Hrest. reflexivity.
    + destruct (wid =? ERR_ABORT).
      * unfold ret. intros H. inversion H; subst.
        eexists. split; [reflexivity|].
        constructor; [|constructor]. cbn. exists pushed. reflexivity.
      * destruct (negb (wid =? ERR_IGNORE)); apply Hrest; reflexivity.
Qed.

(** X17: whatever the mounts, a completed [register_roots] only appends to
    [roots]: one record per root the engine accepted (id >= 0) or reported
    missing ([ERR_MISSING]), carrying the id the engine returned; it makes
    no call but [watch], and the exclude vector of each such call begins
    with the 5 null elements it was constructed with. *)
Theorem register_roots_appends_engine_ids to_add unw mounts (s : state) ok unw' s' :
  register_roots to_add unw mounts s = Done (ok, unw') s' ->
  exists news t,
    roots s' = roots s ++ map Some news /\
    trace s' = trace s ++ t /\
    Forall registers t /\
    (forall r, In r news ->
               (0 <= id r \/ id r = ERR_MISSING) /\
               exists m, In (Watch (path r) (Some m) (id r)) t).
Proof.
  intros Hrun.
  destruct (register_roots_calls _ _ _ _ _ _ _ Hrun) as (t1 & Ht1 & Hall).
  destruct (register_roots_appends _ _ _ _ _ _ _ Hrun)
    as (news & t & Hr & Ht & _ & _ & Hnew).
  assert (t1 = t) by (apply (app_inv_head (trace s)); congruence). subst t1.
  exists news, t.
  split; [exact Hr|]. split; [exact Ht|]. split; [exact Hall | exact Hnew].
Qed.

Lemma drain_roots_kept l : forall to_remove temp (s : state),
  exists s',
    drain_roots (map Some l) to_remove temp s =
      Done (temp ++ map Some (filter (fun r => negb (removed_by to_remove r)) l)) s' /\
    roots s' = match l with [] => roots s | _ :: _ => [] end /\
    trace s' = trace s ++
               map (fun r => Unwatch (id r)) (filter (removed_by to_remove) l).
Proof.
  induction l as [|r l IH]; intros to_remove temp s.
  - exists s. cbn [map filter drain_roots]. unfold ret. rewrite !app_nil_r.
    repeat split.
  - assert (Hk : removed_by to_remove r = PathSet.find (path r) to_remove)
      by reflexivity.
    cbn [map filter drain_roots]. cbv beta. rewrite !Hk.
    unfold bind at 1, modify at 1.
    unfold bind at 1. cbn [deref]. unfold ret at 1.
    destruct (PathSet.find (path r) to_remove).
    + unfold bind at 1, unwatch at 1. cbn [negb].
      match goal with
      | |- context [drain_roots _ _ _ ?s1] =>
          destruct (IH to_remove temp s1) as (s' & Hrun & Hr & Ht)
      end.
      exists s'. split; [exact Hrun|]. split.
      * rewrite Hr. destruct l; [apply rev_nil || reflexivity | reflexivity].
      * rewrite Ht. cbn [trace log with_env with_roots map].
        rewrite <- app_assoc. reflexivity.
    + cbn [negb].
      match goal with
      | |- context [drain_roots _ _ _ ?s1] =>
          destruct (IH to_remove (temp ++ [Some r]) s1) as (s' & Hrun & Hr & Ht)
      end.
      exists s'. split; [rewrite Hrun, <- app_assoc; reflexivity|]. split.
      * rewrite Hr. destruct l; reflexivity.
      * exact Ht.
Qed.

Lemma rev_repeat {A} (x : A) n : rev (repeat x n) = repeat x n.
Proof.
  induction n as [|n IH]; [reflexivity|]. cbn [repeat rev]. rewrite IH.
  clear IH. induction n as [|n IH]; [reflexivity|].
  cbn [repeat app]. rewrite IH. reflexivity.
Qed.

(** X18: over a [roots] vector without null elements, [unregister_roots]
    with a non-empty [to_remove] calls [unwatch] once for every record whose
    path is in [to_remove], from the back of the vector to its front, keeps
    the other records in their order, and leaves behind them as many null
    elements as the vector had records. *)
Theorem unregister_roots_leaves_nulls_behind to_remove rs (s : state) :
  to_remove <> [] -> roots s = map Some rs ->
  exists s',
    unregister_roots to_remove s = Done tt s' /\
    roots s' = map Some (filter (fun r => negb (removed_by to_remove r)) rs) ++
               repeat None (List.length rs) /\
    trace s' = trace s ++
               map (fun r => Unwatch (id r))
                   (filter (removed_by to_remove) (rev rs)).
Proof.
  intros Hne Hroots. unfold unregister_roots.
  destruct to_remove as [|x to_remove]; [congruence|].
  cbn [PathSet.size List.length Nat.eqb].
  unfold bind at 1, gets at 1. unfold bind at 1, gets at 1. unfold bind at 1.
  rewrite Hroots, <- map_rev, length_map.
  destruct (drain_roots_kept (rev rs) (x :: to_remove)
              (repeat None (List.length rs)) s) as (s1 & Hrun & Hr & Ht).
  rewrite Hrun. unfold modify. eexists. split; [reflexivity|].
  cbn [roots trace with_roots]. split; [|exact Ht].
  assert (Hempty : roots s1 = []).
  { rewrite Hr. destruct (rev rs) eqn:E; [|reflexivity].
    rewrite Hroots. apply (f_equal (@rev _)) in E.
    rewrite rev_involutive in E. rewrite E. reflexivity. }
  rewrite Hempty. cbn [app]. rewrite rev_app_distr, rev_repeat, <- map_rev.
  rewrite <- filter_rev, rev_involutive. reflexivity.
Qed.

(** X19: when the mount table cannot be opened, an update that is not the
    refusal returns false having done nothing else: no engine call, no
    output, and the current set stays. *)
Theorem update_roots_aborts_without_mount_table new_roots (s : state) :
  refused new_roots = false -> sys_mtab (env s) = None ->
  update_roots new_roots s = Done false (log (Mtab None) s).
Proof. apply update_roots_unreadable. Qed.

(** X20: with an empty current set the refusal of ["/"] succeeds: it prints
    its block (outside self-test mode), reads no mount table, calls no
    engine function, and leaves [roots] and the empty set as they are. *)
Theorem refusal_succeeds_on_empty_registry new_roots (s : state) :
  refused new_roots = true -> roots_as_paths s = PathSet.empty ->
  exists s',
    update_roots new_roots s = Done true s' /\
    roots s' = roots s /\ roots_as_paths s' = PathSet.empty /\
    trace s' = trace s ++ (if self_test s then [] else [Printf REFUSAL []]).
Proof. apply refusal_with_empty_set. Qed.

End MountFacts.

(** ** Events, ticks and the loop *)

Section LoopFacts.

Context {P : Platform}.

Lemma scrub_length p : strlen (scrub p) = strlen p.
Proof.
  unfold strlen. induction p as [|c p IH]; cbn [scrub String.length];
    [reflexivity|]. rewrite IH. reflexivity.
Qed.

Lemma scrub_no_lf p : has_byte LF (scrub p) = false.
Proof.
  induction p as [|c p IH]; cbn [scrub has_byte]; [reflexivity|].
  rewrite IH, orb_false_r. destruct (Ascii.eqb_spec c LF) as [_|Hne].
  - reflexivity.
  - destruct (Ascii.eqb_spec c LF); [contradiction | reflexivity].
Qed.

Lemma scrub_clean p : has_byte LF p = false -> scrub p = p.
Proof.
  induction p as [|c p IH]; cbn [scrub has_byte]; [reflexivity|].
  intros H. apply orb_false_iff in H. destruct H as [Hc Hp].
  rewrite Hc, IH by exact Hp. reflexivity.
Qed.

(** X21: the path bytes [report_event] writes are as many as the path has,
    contain no line feed (each one is replaced by NUL, the path is not cut
    at it), and are the path itself when it has no line feed. *)
Theorem report_event_scrubs_line_feeds (ev p : string) (s : state) :
  report_event ev p s =
    Done tt (log (Write (ev ++ nl ++ scrub p ++ nl)%string) s)
  /\ strlen (scrub p) = strlen p
  /\ has_byte LF (scrub p) = false
  /\ (has_byte LF p = false -> scrub p = p).
Proof.
  split; [reflexivity|]. split; [apply scrub_length|].
  split; [apply scrub_no_lf | apply scrub_clean].
Qed.

Lemma inotify_callback_reports (p : string) (ev : Z) (s : state) :
  has_self_bits ev = false ->
  exists t,
    inotify_callback p ev s = Done tt (log_all t s) /\
    stdout_calls t = t /\ (List.length t <= 3)%nat.
Proof.
  intros Hbits. unfold has_self_bits in Hbits.
  unfold inotify_callback, bind at 1. rewrite Hbits.
  assert (Hrep : exists t1,
             (if has_bits ev (Z.lor IN_CREATE IN_MOVED_TO)
              then report_event "CREATE" p;; report_event "CHANGE" p
              else if has_bits ev IN_MODIFY then report_event "CHANGE" p
              else if has_bits ev IN_ATTRIB then report_event "STATS" p
              else if has_bits ev (Z.lor IN_DELETE IN_MOVED_FROM)
                   then report_event "DELETE" p
                   else ret tt) s = Done tt (log_all t1 s) /\
             stdout_calls t1 = t1 /\ (List.length t1 <= 2)%nat).
  { destruct (has_bits ev (Z.lor IN_CREATE IN_MOVED_TO)).
    { eexists [_; _]. unfold bind, report_event, modify.
      rewrite !log_is_log_all, log_all_app. repeat split. cbn. lia. }
    destruct (has_bits ev IN_MODIFY).
    { eexists [_]. unfold report_event, modify. rewrite log_is_log_all.
      repeat split. cbn. lia. }
    destruct (has_bits ev IN_ATTRIB).
    { eexists [_]. unfold report_event, modify. rewrite log_is_log_all.
      repeat split. cbn. lia. }
    destruct (has_bits ev (Z.lor IN_DELETE IN_MOVED_FROM)).
    { eexists [_]. unfold report_event, modify. rewrite log_is_log_all.
      repeat split. cbn. lia. }
    exists []. unfold ret. rewrite log_all_nil. repeat split. cbn. lia. }
  destruct Hrep as (t1 & -> & Hout & Hlen).
  destruct (has_bits ev IN_UNMOUNT).
  - unfold output. cbn [self_test log_all]. destruct (self_test s).
    + exists t1. split; [reflexivity|]. split; [exact Hout | lia].
    + exists (t1 ++ [Printf ("RESET" ++ nl)%string []]).
      rewrite log_is_log_all, log_all_app. split; [reflexivity|].
      split.
      * rewrite stdout_calls_app, Hout. reflexivity.
      * rewrite length_app. cbn. lia.
  - exists t1. unfold ret. split; [reflexivity|]. split; [exact Hout | lia].
Qed.

(** X22: a callback for an event without the delete-self and move-self
    bits cannot fail and only writes to stdout: at most two event records
    and a RESET; the registry and the engine are not touched. *)
Theorem callback_without_self_bits_only_reports (p : string) (ev : Z) (s : state) :
  has_self_bits ev = false ->
  exists t,
    inotify_callback p ev s = Done tt (log_all t s) /\
    stdout_calls t = t /\ (List.length t <= 3)%nat.
Proof. apply inotify_callback_reports. Qed.

Lemma check_missing_loop_watched rs : forall done (s : state),
  roots s = map Some (done ++ rs) ->
  Forall (fun r => 0 <= id r) rs ->
  for_roots check_missing_at (List.length done) (List.length rs) s = Done tt s.
Proof.
  induction rs as [|r rest IH]; intros done s Hroots Hall; [reflexivity|].
  inversion Hall as [|? ? Hr Hrest]; subst.
  cbn [for_roots List.length]. unfold bind at 1.
  rewrite (check_missing_at_watched _ s r (roots_nth done r rest s Hroots))
    by (apply Z.ltb_ge; exact Hr).
  rewrite <- (length_snoc done r). apply IH; [|exact Hrest].
  rewrite Hroots. apply roots_same.
Qed.

(** X23: over a [roots] vector without null elements, a tick with no
    missing root is a no-op: no [stat], no engine call, no output, the
    state is the one before. *)
Theorem tick_without_missing_root_is_noop (s : state) rs :
  roots s = map Some rs -> Forall (fun r => 0 <= id r) rs ->
  check_missing_roots s = Done tt s.
Proof.
  intros Hroots Hall. unfold check_missing_roots, bind, gets.
  rewrite Hroots, length_map.
  apply (check_missing_loop_watched rs [] s); assumption.
Qed.

Lemma vanish_settles p r : watched_at p (vanish p r) = false.
Proof.
  unfold vanish. destruct (watched_at p r) eqn:E; [reflexivity | exact E].
Qed.

Lemma vanish_twice p rs : map (vanish p) (map (vanish p) rs) = map (vanish p) rs.
Proof.
  rewrite map_map. apply map_ext. intros r. unfold vanish at 1.
  rewrite vanish_settles. reflexivity.
Qed.

Lemma vanish_events_after p rs : flat_map (vanish_events p) (map (vanish p) rs) = [].
Proof.
  induction rs as [|r rs IH]; [reflexivity|].
  cbn [map flat_map]. unfold vanish_events at 1. rewrite vanish_settles, IH.
  reflexivity.
Qed.

Lemma vanish_misses p rs :
  Forall (fun r => watched_at p r = false) rs ->
  map (vanish p) rs = rs /\ flat_map (vanish_events p) rs = [].
Proof.
  induction 1 as [|r rs Hr _ [IH1 IH2]]; [split; reflexivity|].
  cbn [map flat_map]. unfold vanish at 1, vanish_events at 1.
  rewrite Hr, IH1, IH2. split; reflexivity.
Qed.

(** X24: over a [roots] vector without null elements, [check_root_removal]
    is idempotent (a second delete-self for the same path finds no watched
    root: no [unwatch], no DELETE, no change), and a path that matches no
    watched root changes nothing. *)
Theorem root_removal_is_idempotent (p : string) (s : state) rs :
  roots s = map Some rs ->
  exists s1 s2,
    check_root_removal p s = Done tt s1 /\
    check_root_removal p s1 = Done tt s2 /\
    roots s2 = roots s1 /\ trace s2 = trace s1 /\
    (Forall (fun r => watched_at p r = false) rs ->
     roots s1 = roots s /\ trace s1 = trace s).
Proof.
  intros Hroots.
  destruct (check_root_removal_vanishes p s rs Hroots) as (s1 & Hrun1 & Hr1 & Ht1).
  destruct (check_root_removal_vanishes p s1 _ Hr1) as (s2 & Hrun2 & Hr2 & Ht2).
  exists s1, s2. split; [exact Hrun1|]. split; [exact Hrun2|].
  split; [rewrite Hr2, Hr1, vanish_twice; reflexivity|].
  split; [rewrite Ht2, vanish_events_after, app_nil_r; reflexivity|].
  intros Hmiss. destruct (vanish_misses p rs Hmiss) as [Hm He].
  rewrite Hr1, Ht1, Hm, He, app_nil_r. split; [symmetry; exact Hroots | reflexivity].
Qed.

(** X25: in every state the daemon can reach, the first idle wake-up of
    [main_loop] (a [select] that times out, after any number of
    interrupted ones) ends the run in a null dereference, whatever the
    engine's [process_inotify_input] is. *)
Theorem first_idle_wake_ends_the_run (process : M bool) (s : state) n later :
  reachable s ->
  exists s',
    main_loop process
      (repeat (SelectFailed true) n ++ Selected false false :: later) s
    = Fault NullDeref s'.
Proof.
  intros Hreach. induction n as [|n IH]; [|exact IH].
  cbn [repeat app main_loop]. unfold bind at 1.
  destruct (check_missing_roots_null s) as [s' E].
  - rewrite (reachable_roots s Hreach). left. reflexivity.
  - rewrite E. exists s'. reflexivity.
Qed.

(** X26: on [EXIT], [main] leaves with status 0 when the current set is
    empty; when it is not, the closing [unregister_roots(roots_as_paths)]
    ends the run in a null dereference instead. *)
Theorem exit_command_outcome (process : M bool) (s : state) rest b later :
  reachable s ->
  stdin s = mkFILE ("EXIT" ++ nl ++ rest)%string false ->
  (roots_as_paths s = PathSet.empty ->
   main_after_init process (Selected true b :: later) s
   = Done (Some 0) (with_stdin (mkFILE rest false) s))
  /\ (roots_as_paths s <> PathSet.empty ->
      exists s', main_after_init process (Selected true b :: later) s
                 = Fault NullDeref s').
Proof.
  intros Hreach Hin.
  assert (Hloop : main_loop process (Selected true b :: later) s
                  = Done (Some true) (with_stdin (mkFILE rest false) s)).
  { cbn [main_loop]. unfold bind at 1, read_input, bind at 1.
    rewrite (read_stdin_line s "EXIT" rest);
      [reflexivity | unfold strlen, INPUT_BUF_LEN; cbn; lia | reflexivity
       | reflexivity | exact Hin]. }
  split.
  - intros Hempty. unfold main_after_init, bind at 1. rewrite Hloop.
    unfold bind at 1, gets at 1.
    change (roots_as_paths (with_stdin (mkFILE rest false) s))
      with (roots_as_paths s).
    rewrite Hempty. unfold bind at 1. rewrite unregister_roots_nothing.
    reflexivity.
  - intros Hne. unfold main_after_init, bind at 1. rewrite Hloop.
    unfold bind at 1, gets at 1.
    change (roots_as_paths (with_stdin (mkFILE rest false) s))
      with (roots_as_paths s).
    unfold bind at 1.
    destruct (unregister_roots_null (roots_as_paths s)
                (with_stdin (mkFILE rest false) s) Hne) as [s' E].
    + change (roots (with_stdin (mkFILE rest false) s)) with (roots s).
      rewrite (reachable_roots s Hreach). left. reflexivity.
    + rewrite E. exists s'. reflexivity.
Qed.

End LoopFacts.

(** ** What the daemon can reach *)

Section IdleRegistry.

Context {P : Platform}.

Lemma null_block_quiet : forallb (fun e => negb (is_engine_call e)) null_block = true.
Proof. reflexivity. Qed.

Lemma existsb_false_forall {A} (f : A -> bool) l :
  existsb f l = false <-> forall x, In x l -> f x = false.
Proof.
  induction l as [|a l IH]; cbn [existsb In].
  - split; [intros _ x [] | reflexivity].
  - rewrite orb_false_iff, IH. split.
    + intros [Ha Hl] x [<-|Hx]; auto.
    + intros H. split; [apply H; left; reflexivity|].
      intros x Hx. apply H. right. exact Hx.
Qed.

(** X27: an update whose roots all fail the absolute-path test, and which
    drops none of the current ones, succeeds without registering or
    reporting any of them: it reads the mount table, prints the block of
    the 20 null elements (outside self-test mode) and makes the set
    current. *)
Theorem relative_roots_become_current (s : state) new_roots ents :
  refused new_roots = false ->
  sys_mtab (env s) = Some ents ->
  forallb (fun r => negb (valid_root r)) new_roots = true ->
  (forall x, In x (roots_as_paths s) -> In x new_roots) ->
  update_roots new_roots s =
  Done true
       (with_paths new_roots
          (log_all (Mtab (Some ents) :: (if self_test s then [] else null_block)) s)).
Proof.
  intros Href Hm Hinvalid Hkeep.
  rewrite (update_roots_registering _ ents s Href Hm).
  assert (Hadd : existsb valid_root
                   (set_difference (roots_as_paths s) new_roots PathSet.empty) = false).
  { apply existsb_false_forall. intros x Hx. apply set_difference_in in Hx.
    destruct Hx as [[]|[Hx _]]. rewrite forallb_forall in Hinvalid.
    apply negb_true_iff. apply Hinvalid. exact Hx. }
  rewrite Hadd, (set_difference_subset new_roots (roots_as_paths s)) by exact Hkeep.
  unfold bind at 1. cbn [PathSet.empty]. rewrite unregister_roots_nothing.
  rewrite update_roots_report. cbn [self_test log].
  destruct (self_test s); rewrite log_is_log_all, ?log_all_app; reflexivity.
Qed.

Lemma forallb_app_true {A} (f : A -> bool) a b :
  forallb f a = true -> forallb f b = true -> forallb f (a ++ b) = true.
Proof. intros Ha Hb. rewrite forallb_app, Ha, Hb. reflexivity. Qed.

Lemma update_roots_stays_idle new_roots (s : state) ok s' :
  registry_idle s -> update_roots new_roots s = Done ok s' -> registry_idle s'.
Proof.
  intros (Hroots & Hpaths & Htrace) Hrun.
  assert (Hin : In None (roots s)) by (rewrite Hroots; left; reflexivity).
  destruct (refused new_roots) eqn:Href.
  - rewrite (update_roots_refusing _ s Href) in Hrun.
    set (s0 := if self_test s then s else log (Printf REFUSAL []) s) in *.
    assert (Hs0 : roots s0 = roots s /\
                  forallb (fun e => negb (is_engine_call e)) (trace s0) = true).
    { subst s0. destruct (self_test s); split; try reflexivity; try exact Htrace.
      cbn [trace log]. apply forallb_app_true; [exact Htrace | reflexivity]. }
    destruct Hs0 as [Hr0 Ht0]. unfold bind at 1 in Hrun.
    destruct (unregister_roots (roots_as_paths s) s0) as [[] s2|f s2] eqn:E;
      [|discriminate].
    apply unregister_roots_keeps_null in E; [|rewrite Hr0; exact Hin].
    subst s2. inversion Hrun; subst.
    split; [cbn [roots with_paths]; congruence|]. split; [reflexivity | exact Ht0].
  - destruct (sys_mtab (env s)) as [ents|] eqn:Hm.
    + rewrite (update_roots_registering _ ents s Href Hm) in Hrun.
      destruct (existsb valid_root _) eqn:Hadd; [discriminate|].
      unfold bind at 1 in Hrun.
      destruct (unregister_roots _ (log (Mtab (Some ents)) s)) as [[] s2|f s2] eqn:E;
        [|discriminate].
      apply unregister_roots_keeps_null in E; [|exact Hin]. subst s2.
      rewrite update_roots_report in Hrun. inversion Hrun; subst. clear Hrun.
      cbn [self_test log]. split; [|split].
      * destruct (self_test s); cbn [roots with_paths log log_all]; exact Hroots.
      * cbn [roots_as_paths with_paths]. apply forallb_forall. intros x Hx.
        destruct (in_dec string_dec x (roots_as_paths s)) as [Hold|Hnew].
        -- rewrite forallb_forall in Hpaths. apply Hpaths. exact Hold.
        -- apply negb_true_iff.
           apply (proj1 (existsb_false_forall _ _) Hadd).
           apply set_difference_in. right. split; assumption.
      * destruct (self_test s); cbn [trace with_paths log log_all].
        -- apply forallb_app_true; [exact Htrace | reflexivity].
        -- apply forallb_app_true; [|exact null_block_quiet].
           apply forallb_app_true; [exact Htrace | reflexivity].
    + rewrite (update_roots_unreadable _ s Href Hm) in Hrun.
      inversion Hrun; subst. split; [exact Hroots|]. split; [exact Hpaths|].
      cbn [trace log]. apply forallb_app_true; [exact Htrace | reflexivity].
Qed.

Lemma with_stdin_idle f (s : state) : registry_idle s -> registry_idle (with_stdin f s).
Proof. intros H. exact H. Qed.

Lemma read_input_stays_idle (s : state) r s' :
  registry_idle s -> read_input s = Done r s' -> registry_idle s'.
Proof.
  intros Hidle. unfold read_input, bind at 1.
  pose proof (read_stdin_frame s) as Hf.
  destruct (read_stdin s) as [line s1|f s1]; [|discriminate].
  assert (H1 : registry_idle s1) by (rewrite Hf; apply with_stdin_idle, Hidle).
  destruct line as [line|]; [|intros H; inversion H; subst; exact H1].
  destruct (strcmp line "EXIT" =? 0); [intros H; inversion H; subst; exact H1|].
  destruct (strcmp line "ROOTS" =? 0); [|intros H; inversion H; subst; exact H1].
  unfold bind at 1.
  pose proof (read_roots_frame PathSet.empty s1) as Hg.
  destruct (read_roots PathSet.empty s1) as [c s2|f s2]; [|discriminate].
  assert (H2 : registry_idle s2) by (rewrite Hg; apply with_stdin_idle, H1).
  destruct c as [new_roots|]; [|intros H; inversion H; subst; exact H2].
  unfold bind at 1.
  destruct (update_roots new_roots s2) as [ok s3|f s3] eqn:E; [|discriminate].
  apply update_roots_stays_idle in E; [|exact H2].
  intros H; inversion H; subst. exact E.
Qed.

Lemma inotify_callback_stays_idle p ev (s : state) s' :
  registry_idle s -> inotify_callback p ev s = Done tt s' -> registry_idle s'.
Proof.
  intros (Hroots & Hpaths & Htrace) Hrun.
  destruct (has_self_bits ev) eqn:Hbits.
  - exfalso. destruct (inotify_callback_split p ev s) as (s1 & [H1 _] & E).
    rewrite E, Hbits in Hrun.
    destruct (check_root_removal_null p s1) as [s2 E2]; [|congruence].
    rewrite H1, Hroots. left. reflexivity.
  - destruct (inotify_callback_reports p ev s Hbits) as (t & E & Hout & _).
    rewrite E in Hrun. inversion Hrun; subst.
    split; [exact Hroots|]. split; [exact Hpaths|].
    cbn [trace log_all]. apply forallb_app_true; [exact Htrace|].
    rewrite <- Hout. unfold stdout_calls. apply forallb_forall. intros e He.
    apply filter_In in He. destruct He as [_ He]. destruct e; try discriminate;
      reflexivity.
Qed.

Lemma reachable_idle (s : state) : reachable s -> registry_idle s.
Proof.
  induction 1 as [test input w
                 | s nr ok s' _ IH Hrun
                 | s r s' _ IH Hrun
                 | s p ev s' _ IH Hrun
                 | s s' _ IH Hrun
                 | s f w _ IH].
  - repeat split.
  - exact (update_roots_stays_idle nr s ok s' IH Hrun).
  - exact (read_input_stays_idle s r s' IH Hrun).
  - exact (inotify_callback_stays_idle p ev s s' IH Hrun).
  - exfalso. destruct IH as (Hroots & _).
    destruct (check_missing_roots_null s) as [s1 E]; [|congruence].
    rewrite Hroots. left. reflexivity.
  - exact IH.
Qed.

(** X28: the daemon never registers a root: in every state it can reach,
    [roots] holds exactly the 20 null elements it was constructed with,
    the current set holds no root with an absolute effective path, and
    neither [watch] nor [unwatch] has been called. *)
Theorem no_root_is_ever_registered (s : state) :
  reachable s ->
  roots s = repeat None 20 /\
  (forall r, In r (roots_as_paths s) -> valid_root r = false) /\
  (forall e, In e (trace s) -> is_engine_call e = false).
Proof.
  intros Hreach. destruct (reachable_idle s Hreach) as (Hroots & Hpaths & Htrace).
  split; [exact Hroots|]. split.
  - intros r Hr. rewrite forallb_forall in Hpaths. apply negb_true_iff.
    apply Hpaths. exact Hr.
  - intros e He. rewrite forallb_forall in Htrace. apply negb_true_iff.
    apply Htrace. exact He.
Qed.

End IdleRegistry.

(** ** Roots that are never there to change state *)

Section AbsentRoots.

Context {P : Platform}.








End AbsentRoots.

(** ** The statements of the later sections, run on concrete inputs *)

Section MoreScenarios.

Import Sim.

Lemma insert_witness :
  ordered ["b"; "a"] /\ PathSet.insert "b" ["b"; "a"] = ["b"; "a"]
  /\ PathSet.find "c" (PathSet.insert "c" ["b"; "a"]) = true.
Proof.
  assert (Hord : ordered ["b"; "a"]) by (repeat constructor).
  split; [exact Hord|]. split.
  - destruct (insert_is_ordered_set_insertion "b" ["b"; "a"] Hord)
      as (_ & _ & H & _).
    apply H. left. reflexivity.
  - destruct (insert_is_ordered_set_insertion "c" ["b"; "a"] Hord)
      as (_ & _ & _ & H).
    exact H.
Defined.

Lemma set_difference_witness :
  ordered (set_difference ["b"] ["c"; "b"; "a"] PathSet.empty).
Proof.
  destruct (set_difference_is_s2_minus_s1 ["b"] ["c"; "b"; "a"] PathSet.empty)
    as [H _]; [constructor | exact H].
Defined.

Lemma read_line_witness :
  read_line (pipe ["ROOTS"; "/tmp/x"]) = (Ok (Some "ROOTS"), pipe ["/tmp/x"]).
Proof.
  apply (read_line_returns_the_line "ROOTS" (lines ["/tmp/x"]));
    [apply Nat.ltb_lt; vm_compute; reflexivity | reflexivity | reflexivity].
Defined.

Lemma long_line_witness :
  read_line (mkFILE (long_line ++ "b" ++ nl)%string false) =
  (Ok (Some long_line), mkFILE ("b" ++ nl)%string false).
Proof.
  apply (read_line_splits_long_lines long_line ("b" ++ nl)%string);
    vm_compute; reflexivity.
Defined.

Lemma unterminated_tail_witness :
  read_line (mkFILE "ROO" false) = (Ok None, mkFILE EmptyString true).
Proof.
  apply (read_line_drops_unterminated_tail "ROO" false);
    [apply Nat.ltb_lt; vm_compute; reflexivity | reflexivity].
Defined.

Lemma leading_nul_witness :
  read_line (mkFILE (String NUL "x" ++ nl ++ "#" ++ nl)%string false) =
  (Ok (Some EmptyString), mkFILE ("#" ++ nl)%string false).
Proof.
  apply (read_line_stops_at_first_nul (String NUL "x") ("#" ++ nl)%string);
    [apply Nat.ltb_lt; vm_compute; reflexivity | reflexivity].
Defined.

Lemma roots_command_witness :
  read_input (booted ["ROOTS"; "rel/"; "#"] plain) =
  (ok <- update_roots (collect ["rel/"] PathSet.empty) ;;
   ret (if ok then ERR_CONTINUE else ERR_ABORT))
    (with_stdin (mkFILE EmptyString false) (booted ["ROOTS"; "rel/"; "#"] plain)).
Proof.
  apply (read_input_runs_update_on_collected_set
           (booted ["ROOTS"; "rel/"; "#"] plain) ["rel/"] EmptyString).
  - repeat constructor.
  - reflexivity.
Defined.

Lemma cut_roots_witness :
  read_input (booted ["ROOTS"; "/tmp/x"] plain) =
  Done 0 (with_stdin (mkFILE EmptyString true) (booted ["ROOTS"; "/tmp/x"] plain)).
Proof.
  destruct (read_input_gives_up_on_cut_roots
              (booted ["ROOTS"; "/tmp/x"] plain) ["/tmp/x"]) as [_ H].
  - repeat constructor.
  - apply H. reflexivity.
Defined.

Lemma other_command_witness :
  read_input (booted ["PING"; "EXIT"] plain) =
  Done ERR_CONTINUE (with_stdin (pipe ["EXIT"]) (booted ["PING"; "EXIT"] plain)).
Proof.
  apply (read_input_other_commands
           (booted ["PING"; "EXIT"] plain) "PING" (lines ["EXIT"]));
    [apply Nat.ltb_lt; vm_compute; reflexivity
    | reflexivity | reflexivity | discriminate | reflexivity].
Defined.

Lemma invalid_roots_witness :
  register_roots ["rel"; "|rel"] [] [] (booted [] plain) =
  Done (true, []) (booted [] plain).
Proof.
  apply (invalid_roots_are_dropped_silently ["rel"; "|rel"] [] [] (booted [] plain)).
  reflexivity.
Defined.

Lemma register_roots_witness :
  match register_roots ["/tmp/x"] [] [] (booted [] plain) with
  | Done _ s' =>
      exists news t,
        roots s' = roots (booted [] plain) ++ map Some news /\
        trace s' = trace (booted [] plain) ++ t /\
        Forall registers t /\
        (forall r, In r news ->
                   (0 <= id r \/ id r = ERR_MISSING) /\
                   exists m, In (Watch (path r) (Some m) (id r)) t)
  | Fault _ _ => False
  end.
Proof.
  destruct (register_roots ["/tmp/x"] [] [] (booted [] plain))
    as [[ok unw'] s'|f s'] eqn:E.
  - exact (register_roots_appends_engine_ids _ _ _ _ _ _ _ E).
  - vm_compute in E. discriminate E.
Defined.

Lemma unregister_roots_witness :
  exists s',
    unregister_roots ["/tmp/x"] stale = Done tt s' /\
    roots s' = [None] /\
    trace s' = [Unwatch ERR_MISSING].
Proof.
  destruct (unregister_roots_leaves_nulls_behind
              ["/tmp/x"] [mkRoot "/tmp/x" ERR_MISSING] stale)
    as (s' & E & Hr & Ht); [discriminate | reflexivity |].
  exists s'. split; [exact E|]. split; [exact Hr | exact Ht].
Defined.

Lemma no_mount_table_witness :
  update_roots ["/tmp/x"] (booted [] no_mtab) =
  Done false (log (Mtab None) (booted [] no_mtab)).
Proof.
  apply (update_roots_aborts_without_mount_table ["/tmp/x"] (booted [] no_mtab));
    reflexivity.
Defined.

Lemma refusal_witness :
  exists s',
    update_roots ["/"] (booted [] plain) = Done true s' /\
    roots s' = roots (booted [] plain) /\ roots_as_paths s' = PathSet.empty /\
    trace s' = [Printf REFUSAL []].
Proof.
  apply (refusal_succeeds_on_empty_registry ["/"] (booted [] plain));
    reflexivity.
Defined.

Lemma callback_witness :
  exists t,
    inotify_callback "/tmp/x/f" IN_MODIFY watching = Done tt (log_all t watching) /\
    stdout_calls t = t /\ (List.length t <= 3)%nat.
Proof.
  apply (callback_without_self_bits_only_reports "/tmp/x/f" IN_MODIFY watching).
  reflexivity.
Defined.

Lemma quiet_tick_witness :
  check_missing_roots watching = Done tt watching.
Proof.
  apply (tick_without_missing_root_is_noop watching [mkRoot "/tmp/x" 0]).
  - reflexivity.
  - constructor; [discriminate | constructor].
Defined.

Lemma root_removal_witness :
  exists s1 s2,
    check_root_removal "/tmp/x" watching = Done tt s1 /\
    check_root_removal "/tmp/x" s1 = Done tt s2 /\
    roots s2 = roots s1 /\ trace s2 = trace s1.
Proof.
  destruct (root_removal_is_idempotent "/tmp/x" watching [mkRoot "/tmp/x" 0])
    as (s1 & s2 & E1 & E2 & Hr & Ht & _); [reflexivity|].
  exists s1, s2. split; [exact E1|]. split; [exact E2|].
  split; [exact Hr | exact Ht].
Defined.

Lemma idle_wake_witness :
  exists s',
    main_loop (ret true)
      (repeat (SelectFailed true) 2 ++ [Selected false false])
      (booted [] plain)
    = Fault NullDeref s'.
Proof.
  apply (first_idle_wake_ends_the_run (ret true) (booted [] plain) 2 []).
  apply reach_init.
Defined.

Lemma exit_command_witness :
  main_after_init (ret true) [Selected true false] (booted ["EXIT"] plain)
  = Done (Some 0) (with_stdin (mkFILE EmptyString false) (booted ["EXIT"] plain)).
Proof.
  destruct (exit_command_outcome (ret true) (booted ["EXIT"] plain)
              EmptyString false []) as [H _].
  - apply reach_init.
  - reflexivity.
  - apply H. reflexivity.
Defined.

Lemma relative_roots_witness :
  update_roots ["rel"] (booted [] plain) = Done true settled.
Proof.
  apply (relative_roots_become_current (booted [] plain) ["rel"]
           [mkMnt "/" "ext4"]).
  - reflexivity.
  - reflexivity.
  - reflexivity.
  - intros x [].
Defined.

Lemma never_registered_witness :
  roots settled = repeat None 20 /\
  (forall r, In r (roots_as_paths settled) -> valid_root r = false) /\
  (forall e, In e (trace settled) -> is_engine_call e = false).
Proof.
  apply (no_root_is_ever_registered settled).
  apply (reach_update (booted [] plain) ["rel"] true settled).
  - apply reach_init.
  - vm_compute. reflexivity.
Defined.



End MoreScenarios.
